(** * Quote verification engine of dooshen-study: a shallow embedding

    The development follows these source files:
    - the anime quote verification workflow (steps [searchQuotes],
      [collectQuotes], [verifyQuote], [generateVerificationReport]);
    - [src/mastra/tools/animechan-tools.ts] (the lookup tools and
      [verifyAnimeQuoteTool] with its helper [parseApiResponse]);
    - the document ingestion workflow (steps [extractPdfText],
      [chunkDocument], [storeDocumentData]) and the storage service of
      [src/mastra/storage/r2-storage-service.ts] it uploads through.

    Network input is an explicit argument of every function that calls
    [fetch]; exceptions are explicit results. *)

From Stdlib Require Import List String Ascii Bool Arith Lia ZArith QArith
  ListSet DecimalString.
Import ListNotations.
Close Scope Q_scope.
Open Scope string_scope.
Open Scope list_scope.

(** ** JavaScript string primitives

    A string is a sequence of code units; the embedding covers the code
    units below 256 (the Latin-1 block), on which [toLowerCase], [trim]
    and the regular expression class [\s] are given in full. *)

Module JsString.

Definition unit_in (lo hi n : nat) : bool := ((lo <=? n) && (n <=? hi))%nat.

(** [String.prototype.toLowerCase] on one code unit: A-Z, and the
    Latin-1 capitals U+00C0..U+00DE except the multiplication sign. *)
Definition lowerUnit (c : ascii) : ascii :=
  let n := nat_of_ascii c in
  if unit_in 65 90 n || (unit_in 192 222 n && negb (n =? 215)%nat)
  then ascii_of_nat (n + 32)
  else c.

Fixpoint toLowerCase (s : string) : string :=
  match s with
  | EmptyString => EmptyString
  | String c r => String (lowerUnit c) (toLowerCase r)
  end.

(** White space and line terminators (what [trim] strips and [\s]
    matches): TAB, LF, VT, FF, CR, SP, NBSP. *)
Definition isWhiteSpace (c : ascii) : bool :=
  let n := nat_of_ascii c in
  unit_in 9 13 n || (n =? 32)%nat || (n =? 160)%nat.

Fixpoint trimStart (s : string) : string :=
  match s with
  | EmptyString => EmptyString
  | String c r => if isWhiteSpace c then trimStart r else s
  end.

Definition reverse (s : string) : string :=
  string_of_list_ascii (rev (list_ascii_of_string s)).

Definition trimEnd (s : string) : string := reverse (trimStart (reverse s)).

Definition trim (s : string) : string := trimEnd (trimStart s).

(** [s.includes(t)]: [t] occurs in [s] as a contiguous substring. *)
Fixpoint includes (s t : string) : bool :=
  String.prefix t s ||
  match s with
  | EmptyString => false
  | String _ r => includes r t
  end.

(** [s.split(/\s+/)]: the pieces between maximal runs of white space.
    [cur] is the current piece, reversed; [insep] tells that the scan is
    inside a separator run. *)
Fixpoint splitWsFrom (s : string) (cur : list ascii) (insep : bool)
  : list string :=
  match s with
  | EmptyString => [string_of_list_ascii (rev cur)]
  | String c r =>
      if isWhiteSpace c then
        if insep then splitWsFrom r cur true
        else string_of_list_ascii (rev cur) :: splitWsFrom r [] true
      else splitWsFrom r (c :: cur) false
  end.

Definition splitWs (s : string) : list string := splitWsFrom s [] false.

(** Template literal interpolation of a length. *)
Definition ofNat (n : nat) : string := NilEmpty.string_of_uint (Nat.to_uint n).

End JsString.

(** ** [Set] and [Map] keyed by strings, in insertion order *)

Module JsColl.

Definition StrSet := list string.

(** [new Set(xs)]: later duplicates are ignored. *)
Definition newSet (xs : list string) : StrSet :=
  fold_left (fun s x => set_add string_dec x s) xs [].

Definition has (s : StrSet) (x : string) : bool := set_mem string_dec x s.

Definition size (s : StrSet) : nat := List.length s.

(** [Map.prototype.set]: an existing key keeps its position and takes the
    new value; a new key goes last. *)
Fixpoint mapSet {V : Type} (k : string) (v : V) (m : list (string * V))
  : list (string * V) :=
  match m with
  | [] => [(k, v)]
  | (k', v') :: r =>
      if String.eqb k k' then (k, v) :: r else (k', v') :: mapSet k v r
  end.

Definition mapStep {V : Type} (m : list (string * V)) (e : string * V)
  : list (string * V) :=
  mapSet (fst e) (snd e) m.

(** [new Map(entries)] *)
Definition newMap {V : Type} (entries : list (string * V))
  : list (string * V) :=
  fold_left mapStep entries [].

Definition values {V : Type} (m : list (string * V)) : list V := map snd m.

End JsColl.

(** ** Exceptions and the network *)

(** A thrown value: an [Error] (or subclass) with its message, or a value
    that is not an [Error].  Messages of engine-made errors (TypeError,
    SyntaxError) are engine text; no statement below depends on them. *)
Inductive exn : Type :=
| Error (message : string)
| NonError.

Inductive result (A : Type) : Type :=
| Ret (a : A)
| Throw (e : exn).
Arguments Ret {A} a.
Arguments Throw {A} e.

Definition bind {A B : Type} (r : result A) (k : A -> result B) : result B :=
  match r with
  | Ret a => k a
  | Throw e => Throw e
  end.

Notation "x <- r ;; k" := (bind r (fun x => k))
  (at level 61, r at next level, right associativity).

Fixpoint mapM {A B : Type} (f : A -> result B) (l : list A)
  : result (list B) :=
  match l with
  | [] => Ret []
  | a :: r => b <- f a ;; bs <- mapM f r ;; Ret (b :: bs)
  end.

(** Outcome of [await fetch(url)] followed by [await response.json()]:
    [fetch] rejects, or it resolves to a response with its status code,
    whose [json()] rejects or resolves to a body. *)
Inductive fetched (Body : Type) : Type :=
| FetchRejects (e : exn)
| Response (status : nat) (json : result Body).
Arguments FetchRejects {Body} e.
Arguments Response {Body} status json.

(** [response.ok]: the status is in the range 200-299. *)
Definition ok (status : nat) : bool :=
  ((200 <=? status) && (status <=? 299))%nat.

(** Truthiness of an optional string ([if (inputData.character)]):
    [asTruthy o] is the string when it is present and not empty. *)
Definition asTruthy (o : option string) : option string :=
  match o with
  | Some s => if String.eqb s EmptyString then None else Some s
  | None => None
  end.

Definition truthyStr (o : option string) : bool :=
  match asTruthy o with
  | Some _ => true
  | None => false
  end.

(** An HTTP request of the quote API: the endpoint with its (unencoded)
    argument, and the [x-api-key] header when a key is supplied. *)
Inductive endpoint : Type :=
| QuotesByCharacter (character : string) (page : option nat)
| QuotesByAnime (anime : string) (page : option nat)
| QuotesAnimeTitle (title : string).

Record request : Type := mkRequest {
  url : endpoint;
  xApiKey : option string
}.

(** [headers['x-api-key'] = apiKey] only for a truthy key. *)
Definition withKey (u : endpoint) (apiKey : option string) : request :=
  mkRequest u (asTruthy apiKey).

Inductive Confidence : Type := high | medium | low.

Inductive MatchType : Type := exact | partial | similar.

Definition MatchType_eqb (a b : MatchType) : bool :=
  match a, b with
  | exact, exact | partial, partial | similar, similar => true
  | _, _ => false
  end.

(** ** The verification workflow *)

Module Workflow.

Import JsString JsColl.

(** [interface AnimechanQuote] *)
Record AnimechanQuote : Type := mkQuote {
  quote : string;
  anime : string;
  character : string
}.

(** The body of a response, at the type the source casts it to
    ([as AnimechanQuote[]]): an array of records whose three fields are
    strings; [NotAnArray] is a body on which [data.map] is not a function.
    An array with an item that lacks one of the string fields is outside
    this type. *)
Inductive Body : Type :=
| QuoteArray (data : list AnimechanQuote)
| NotAnArray.

Definition Network := request -> fetched Body.

(** [data.map((quote) => ({ quote: quote.quote, anime: quote.anime,
    character: quote.character }))] *)
Definition mapQuotes (data : Body) : result (list AnimechanQuote) :=
  match data with
  | QuoteArray l =>
      Ret (map (fun q => mkQuote (quote q) (anime q) (character q)) l)
  | NotAnArray => Throw (Error "data.map is not a function")
  end.

Record SearchInput : Type := mkSearchInput {
  si_quote : string;
  si_character : option string;
  si_anime : option string;
  si_apiKey : option string
}.

Record SearchOutput : Type := mkSearchOutput {
  so_quote : string;
  so_character : option string;
  so_anime : option string;
  so_characterQuotes : list AnimechanQuote;
  so_apiKey : option string
}.

Definition inputMissing {A : Type} : result A :=
  Throw (Error "Input data not found").

(** The [try] block of [searchQuotes]: the value of [characterQuotes] when
    the block completes. *)
Definition searchQuotes_try (net : Network) (character : string)
  (apiKey : option string) (characterQuotes : list AnimechanQuote)
  : result (list AnimechanQuote) :=
  match net (withKey (QuotesByCharacter character (Some 1)) apiKey) with
  | FetchRejects e => Throw e
  | Response status json =>
      if ok status then data <- json ;; mapQuotes data
      else Ret characterQuotes
  end.

(** Step 1, [searchQuotes.execute]. *)
Definition searchQuotes (net : Network) (inputData : option SearchInput)
  : result SearchOutput :=
  match inputData with
  | None => inputMissing
  | Some i =>
      let characterQuotes : list AnimechanQuote := [] in
      let characterQuotes :=
        match asTruthy (si_character i) with
        | Some c =>
            match searchQuotes_try net c (si_apiKey i) characterQuotes with
            | Ret qs => qs
            | Throw _ => characterQuotes
            end
        | None => characterQuotes
        end in
      Ret (mkSearchOutput (si_quote i) (si_character i) (si_anime i)
             characterQuotes (si_apiKey i))
  end.

Record CollectOutput : Type := mkCollectOutput {
  co_quote : string;
  co_allQuotes : list AnimechanQuote;
  co_character : option string;
  co_anime : option string
}.

(** The merge loop of [collectQuotes]: [existingQuotes] is built once,
    before the loop, and the loop pushes onto [allQuotes]. *)
Definition mergeQuotes (allQuotes animeQuotes : list AnimechanQuote)
  : list AnimechanQuote :=
  let existingQuotes := newSet (map quote allQuotes) in
  fold_left
    (fun all q => if negb (has existingQuotes (quote q)) then all ++ [q]
                  else all)
    animeQuotes allQuotes.

Definition collectQuotes_try (net : Network) (animeTitle : string)
  (apiKey : option string) (allQuotes : list AnimechanQuote)
  : result (list AnimechanQuote) :=
  match net (withKey (QuotesByAnime animeTitle (Some 1)) apiKey) with
  | FetchRejects e => Throw e
  | Response status json =>
      if ok status then
        data <- json ;;
        animeQuotes <- mapQuotes data ;;
        Ret (mergeQuotes allQuotes animeQuotes)
      else Ret allQuotes
  end.

(** Step 2, [collectQuotes.execute]. *)
Definition collectQuotes (net : Network) (inputData : option SearchOutput)
  : result CollectOutput :=
  match inputData with
  | None => inputMissing
  | Some i =>
      let allQuotes := so_characterQuotes i in
      let allQuotes :=
        match asTruthy (so_anime i) with
        | Some a =>
            match collectQuotes_try net a (so_apiKey i) allQuotes with
            | Ret qs => qs
            | Throw _ => allQuotes
            end
        | None => allQuotes
        end in
      Ret (mkCollectOutput (so_quote i) allQuotes (so_character i)
             (so_anime i))
  end.

Record Match : Type := mkMatch {
  m_quote : string;
  m_anime : string;
  m_character : string;
  matchType : MatchType
}.

Definition withType (q : AnimechanQuote) (t : MatchType) : Match :=
  mkMatch (quote q) (anime q) (character q) t.

(** [intersection.size / union.size]; both sizes are below 2^32, where
    the double quotient compares with 0.5 as the exact one does. *)
Definition similarity (quoteWords verifyWords : StrSet) : Q :=
  let intersection :=
    newSet (filter (fun x => has verifyWords x) quoteWords) in
  let union := newSet (quoteWords ++ verifyWords) in
  (inject_Z (Z.of_nat (size intersection))
   / inject_Z (Z.of_nat (size union)))%Q.

(** One iteration of the matching loop of [verifyQuote]. *)
Definition matchStep (quoteToVerify : string) (matches : list Match)
  (q : AnimechanQuote) : list Match :=
  let quoteText := trim (toLowerCase (quote q)) in
  if String.eqb quoteText quoteToVerify then
    matches ++ [withType q exact]
  else if includes quoteText quoteToVerify || includes quoteToVerify quoteText
  then
    matches ++ [withType q partial]
  else
    let quoteWords := newSet (splitWs quoteText) in
    let verifyWords := newSet (splitWs quoteToVerify) in
    if Qle_bool (1 # 2)%Q (similarity quoteWords verifyWords)
       && (2 <? size quoteWords)%nat && (2 <? size verifyWords)%nat
    then matches ++ [withType q similar]
    else matches.

(** [inputData.allQuotes.map((q) => [q.quote, q])] *)
Definition entries (allQuotes : list AnimechanQuote)
  : list (string * AnimechanQuote) :=
  map (fun q => (quote q, q)) allQuotes.

Definition uniqueQuotes (allQuotes : list AnimechanQuote)
  : list AnimechanQuote :=
  values (newMap (entries allQuotes)).

(** The full match list, before the cap. *)
Definition findMatches (quoteText : string) (allQuotes : list AnimechanQuote)
  : list Match :=
  let quoteToVerify := trim (toLowerCase quoteText) in
  fold_left (matchStep quoteToVerify) (uniqueQuotes allQuotes) [].

Record VerifyInput : Type := mkVerifyInput {
  vi_quote : string;
  vi_allQuotes : list AnimechanQuote;
  vi_character : option string;
  vi_anime : option string
}.

Record VerifyOutput : Type := mkVerifyOutput {
  vo_quote : string;
  verified : bool;
  confidence : Confidence;
  matches : list Match;
  message : string;
  vo_character : option string;
  vo_anime : option string
}.

Definition ofType (t : MatchType) (ms : list Match) : list Match :=
  filter (fun m => MatchType_eqb (matchType m) t) ms.

Definition notFoundMessage : string :=
  "Quote not found in the database. The quote may not exist, or the character/anime name might be slightly different.".

(** [matches.slice(0, 5)] *)
Definition slice0 {A : Type} (n : nat) (l : list A) : list A := firstn n l.

(** The body of [verifyQuote.execute] after the input guard. *)
Definition verifyQuote (i : VerifyInput) : VerifyOutput :=
  let ms := findMatches (vi_quote i) (vi_allQuotes i) in
  let exactMatches := ofType exact ms in
  let partialMatches := ofType partial ms in
  let '(v, c, msg) :=
    if (0 <? List.length exactMatches)%nat then
      (true, high,
       ("Quote verified! Found " ++ ofNat (List.length exactMatches)
        ++ " exact match(es).")%string)
    else if (0 <? List.length partialMatches)%nat then
      (true, medium,
       ("Quote likely verified. Found " ++ ofNat (List.length partialMatches)
        ++ " partial match(es) - the quote may have slight variations."
       )%string)
    else if (0 <? List.length ms)%nat then
      (true, low,
       ("Found " ++ ofNat (List.length ms)
        ++ " similar quote(s), but not an exact match.")%string)
    else
      (false,
       if (0 <? List.length (vi_allQuotes i))%nat then high else medium,
       notFoundMessage) in
  mkVerifyOutput (vi_quote i) v c (slice0 5 ms) msg
    (vi_character i) (vi_anime i).

(** Step 3, [verifyQuote.execute]. *)
Definition verifyQuote_execute (inputData : option VerifyInput)
  : result VerifyOutput :=
  match inputData with
  | None => inputMissing
  | Some i => Ret (verifyQuote i)
  end.

(** The collaborators of step 4: [mastra.getAgent(id)] and
    [agent.generate(prompt)], whose [text] is the report.  [getAgent]
    answers [None] where the guard [if (!agent)] of the step fires. *)
Record Agent : Type := mkAgent {
  generate : string -> result string
}.

Record Mastra : Type := mkMastra {
  getAgent : string -> option Agent
}.

Record ReportOutput : Type := mkReportOutput {
  ro_verified : bool;
  ro_confidence : Confidence;
  ro_matches : list Match;
  report : string
}.

Definition nl : string := String (ascii_of_nat 10) EmptyString.
Definition dq : string := String (ascii_of_nat 34) EmptyString.

Definition showConfidence (c : Confidence) : string :=
  match c with
  | high => "high"
  | medium => "medium"
  | low => "low"
  end.

Definition showMatchType (t : MatchType) : string :=
  match t with
  | exact => "exact"
  | partial => "partial"
  | similar => "similar"
  end.

(** ASCII letters of [toUpperCase], enough for the confidence names. *)
Fixpoint toUpperCase (s : string) : string :=
  match s with
  | EmptyString => EmptyString
  | String c r =>
      let n := nat_of_ascii c in
      String (if unit_in 97 122 n then ascii_of_nat (n - 32) else c)
             (toUpperCase r)
  end.

Fixpoint join (sep : string) (l : list string) : string :=
  match l with
  | [] => EmptyString
  | [x] => x
  | x :: r => (x ++ sep ++ join sep r)%string
  end.

Fixpoint indexed {A : Type} (i : nat) (l : list A) : list (nat * A) :=
  match l with
  | [] => []
  | a :: r => (i, a) :: indexed (S i) r
  end.

Definition showMatch (im : nat * Match) : string :=
  let (i, m) := im in
  (ofNat (i + 1) ++ ". " ++ dq ++ m_quote m ++ dq ++ nl
   ++ "   - Character: " ++ m_character m ++ nl
   ++ "   - Anime: " ++ m_anime m ++ nl
   ++ "   - Match Type: " ++ showMatchType (matchType m))%string.

Definition buildPrompt (i : VerifyOutput) : string :=
  let context := EmptyString in
  let context :=
    match asTruthy (vo_character i) with
    | Some c => (context ++ "Character: " ++ c ++ nl)%string
    | None => context
    end in
  let context :=
    match asTruthy (vo_anime i) with
    | Some a => (context ++ "Anime: " ++ a ++ nl)%string
    | None => context
    end in
  ("Create a comprehensive verification report for the following anime quote verification:"
   ++ nl ++ nl ++ context ++ nl
   ++ "Quote to verify: " ++ dq ++ vo_quote i ++ dq ++ nl ++ nl
   ++ "Verification Result:" ++ nl
   ++ "- Status: " ++ (if verified i then "VERIFIED" else "NOT VERIFIED") ++ nl
   ++ "- Confidence: " ++ toUpperCase (showConfidence (confidence i)) ++ nl
   ++ "- Message: " ++ message i ++ nl ++ nl
   ++ (if (0 <? List.length (matches i))%nat
       then nl ++ "Matching Quotes Found:" ++ nl
            ++ join (nl ++ nl) (map showMatch (indexed 0 (matches i)))
       else EmptyString)
   ++ nl ++ nl
   ++ "Please provide a well-formatted, friendly report that:" ++ nl
   ++ "1. Summarizes the verification result clearly" ++ nl
   ++ "2. Explains what was found (or not found)" ++ nl
   ++ "3. Provides context about the quote if verified" ++ nl
   ++ "4. Suggests next steps if not verified (e.g., checking alternative character names)" ++ nl
   ++ "5. Uses emojis and formatting to make it engaging" ++ nl
   ++ "6. Includes the confidence level and what it means" ++ nl ++ nl
   ++ "Make it informative but easy to understand.")%string.

(** Step 4, [generateVerificationReport.execute]. *)
Definition generateVerificationReport (mastra : option Mastra)
  (inputData : option VerifyOutput) : result ReportOutput :=
  match inputData with
  | None => inputMissing
  | Some i =>
      match match mastra with
            | Some m => getAgent m "animeAgent"
            | None => None
            end with
      | None => Throw (Error "Anime agent not found")
      | Some agent =>
          text <- generate agent (buildPrompt i) ;;
          Ret (mkReportOutput (verified i) (confidence i) (matches i) text)
      end
  end.

(** [.then(searchQuotes).then(collectQuotes).then(verifyQuote)
    .then(generateVerificationReport)]: each step receives the output of
    the step before it. *)
Definition animeQuoteVerificationWorkflow (net : Network)
  (mastra : option Mastra) (input : SearchInput) : result ReportOutput :=
  s <- searchQuotes net (Some input) ;;
  c <- collectQuotes net (Some s) ;;
  v <- verifyQuote_execute
         (Some (mkVerifyInput (co_quote c) (co_allQuotes c)
                  (co_character c) (co_anime c))) ;;
  generateVerificationReport mastra (Some v).

End Workflow.

(** ** The tools of [animechan-tools.ts] *)

Module Tools.

Import JsString.

(** A parsed JSON body, as a JavaScript value (numbers are the integers,
    of which only being zero matters below).  An object is the list of its
    own properties. *)
#[local] Set Warnings "-register-all".
Inductive value : Type :=
| VUndefined
| VNull
| VBool (b : bool)
| VNumber (n : Z)
| VString (s : string)
| VArray (items : list value)
| VObject (props : list (string * value)).

Definition truthy (v : value) : bool :=
  match v with
  | VUndefined | VNull => false
  | VBool b => b
  | VNumber n => negb (n =? 0)%Z
  | VString s => negb (String.eqb s EmptyString)
  | VArray _ | VObject _ => true
  end.

(** [a || b] *)
Definition orElse (a b : value) : value := if truthy a then a else b.

Fixpoint lookup (k : string) (props : list (string * value)) : option value :=
  match props with
  | [] => None
  | (k', v) :: r => if String.eqb k k' then Some v else lookup k r
  end.

(** [v.k], for the property names the tools read ([status], [data],
    [content], [quote], [anime], [character], [name], [altName], [error]):
    only an object can own one of them. *)
Definition getProp (v : value) (k : string) : result value :=
  match v with
  | VUndefined =>
      Throw (Error ("Cannot read properties of undefined (reading '"
                    ++ k ++ "')")%string)
  | VNull =>
      Throw (Error ("Cannot read properties of null (reading '"
                    ++ k ++ "')")%string)
  | VObject props =>
      Ret (match lookup k props with Some x => x | None => VUndefined end)
  | _ => Ret VUndefined
  end.

(** [v?.k] *)
Definition optProp (v : value) (k : string) : value :=
  match v with
  | VObject props =>
      match lookup k props with Some x => x | None => VUndefined end
  | _ => VUndefined
  end.

(** [typeof v === 'object'] *)
Definition typeofObject (v : value) : bool :=
  match v with
  | VNull | VArray _ | VObject _ => true
  | _ => false
  end.

(** [typeof v === 'string'] *)
Definition typeofString (v : value) : bool :=
  match v with
  | VString _ => true
  | _ => false
  end.

(** [k in v], for [v] an object or an array and [k] a property name as
    above. *)
Definition hasIn (k : string) (v : value) : bool :=
  match v with
  | VObject props =>
      match lookup k props with
      | Some _ => true
      | None => false
      end
  | _ => false
  end.

Definition isArray (v : value) : bool :=
  match v with
  | VArray _ => true
  | _ => false
  end.

(** [v.map(f)]: anything but an array has no callable [map]. *)
Definition arrayMap {B : Type} (what : string) (v : value)
  (f : value -> result B) : result (list B) :=
  match v with
  | VArray items => mapM f items
  | VUndefined | VNull => e <- getProp v "map" ;; Ret []
  | _ => Throw (Error (what ++ ".map is not a function")%string)
  end.

(** The records the tools build; their fields hold whatever the body
    held. *)
Record Quote : Type := mkQuote {
  quote : value;
  anime : value;
  character : value
}.

Definition Unknown : value := VString "Unknown".

(** Wrapper shape, as [parseApiResponse] maps an item of [data]. *)
Definition wrapperItem (item : value) : result Quote :=
  content <- getProp item "content" ;;
  a <- getProp item "anime" ;;
  c <- getProp item "character" ;;
  Ret (mkQuote content
         (orElse (optProp a "name") (orElse (optProp a "altName") Unknown))
         (orElse (optProp c "name") Unknown)).

(** Bare array shape (the same expression in every tool). *)
Definition legacyItem (q : value) : result Quote :=
  text <- getProp q "quote" ;;
  text <- (if truthy text then Ret text else getProp q "content") ;;
  a <- getProp q "anime" ;;
  c <- getProp q "character" ;;
  Ret (mkQuote text
         (if typeofString a then a else orElse (optProp a "name") Unknown)
         (if typeofString c then c else orElse (optProp c "name") Unknown)).

(** The guard [apiResponse && typeof apiResponse === 'object' &&
    'status' in apiResponse && apiResponse.status && apiResponse.data]. *)
Definition isWrapper (apiResponse : value) : bool :=
  truthy apiResponse && typeofObject apiResponse
  && hasIn "status" apiResponse
  && truthy (optProp apiResponse "status")
  && truthy (optProp apiResponse "data").

(** The helper of [verifyAnimeQuoteTool]. *)
Definition parseApiResponse (apiResponse : value) : result (list Quote) :=
  if isWrapper apiResponse then
    arrayMap "apiResponse.data" (optProp apiResponse "data") wrapperItem
  else if isArray apiResponse then
    arrayMap "apiResponse" apiResponse legacyItem
  else Ret [].

Definition Network := request -> fetched value.

(** JavaScript [ToString], for the message of [new Error(v)]; an integer
    is written in decimal, as JavaScript does below [10^21]. *)
Definition showZ (n : Z) : string := NilEmpty.string_of_int (Z.to_int n).

Fixpoint toStringV (v : value) : string :=
  match v with
  | VUndefined => "undefined"
  | VNull => "null"
  | VBool b => if b then "true" else "false"
  | VNumber n => showZ n
  | VString s => s
  | VArray items =>
      (fix joinItems (l : list value) : string :=
         match l with
         | [] => EmptyString
         | [x] => match x with
                  | VUndefined | VNull => EmptyString
                  | _ => toStringV x
                  end
         | x :: r => (match x with
                      | VUndefined | VNull => EmptyString
                      | _ => toStringV x
                      end ++ "," ++ joinItems r)%string
         end) items
  | VObject _ => "[object Object]"
  end.

(** Wrapper shape in [getQuotesByCharacterTool]: no optional chaining. *)
Definition strictWrapperItem (item : value) : result Quote :=
  content <- getProp item "content" ;;
  a <- getProp item "anime" ;;
  name <- getProp a "name" ;;
  a' <- (if truthy name then Ret name
         else alt <- getProp a "altName" ;; Ret (orElse alt Unknown)) ;;
  c <- getProp item "character" ;;
  cname <- getProp c "name" ;;
  Ret (mkQuote content a' cname).

Record QuotesContext : Type := mkQuotesContext {
  qc_character : string;
  qc_page : option nat;
  qc_apiKey : option string
}.

Record QuotesOutput : Type := mkQuotesOutput {
  quotes : list Quote;
  page : nat
}.

(** [context.page || 1] *)
Definition pageOr1 (p : option nat) : nat :=
  match p with
  | Some (S n) => S n
  | _ => 1
  end.

Definition unexpectedFormat : string := "Unexpected API response format".

(** The [try] block of [getQuotesByCharacterTool.execute]. *)
Definition getQuotesByCharacter_try (net : Network) (context : QuotesContext)
  : result QuotesOutput :=
  match net (withKey (QuotesByCharacter (qc_character context)
                        (Some (pageOr1 (qc_page context))))
               (qc_apiKey context)) with
  | FetchRejects e => Throw e
  | Response status json =>
      if negb (ok status) then
        errorData <- json ;;
        err <- getProp errorData "error" ;;
        Throw (Error (toStringV
                 (orElse err
                    (VString ("API request failed with status "
                              ++ ofNat status)%string))))
      else
        apiResponse <- json ;;
        st <- getProp apiResponse "status" ;;
        (* [apiResponse.status && apiResponse.data]: when it is truthy, it
           is the value of [apiResponse.data] *)
        cond <- (if truthy st then getProp apiResponse "data" else Ret st) ;;
        quotesArray <-
          (if truthy cond then
             arrayMap "apiResponse.data" cond strictWrapperItem
           else if isArray apiResponse then
             arrayMap "apiResponse" apiResponse legacyItem
           else Throw (Error unexpectedFormat)) ;;
        Ret (mkQuotesOutput quotesArray (pageOr1 (qc_page context)))
  end.

Definition dq : string := String (ascii_of_nat 34) EmptyString.

(** [getQuotesByCharacterTool.execute]: the [catch] rethrows with a
    prefix. *)
Definition getQuotesByCharacterTool (net : Network) (context : QuotesContext)
  : result QuotesOutput :=
  match getQuotesByCharacter_try net context with
  | Ret out => Ret out
  | Throw e =>
      let prefix := ("Failed to fetch quotes for character " ++ dq
                     ++ qc_character context ++ dq ++ ": ")%string in
      match e with
      | Error msg => Throw (Error (prefix ++ msg)%string)
      | NonError => Throw (Error (prefix ++ "Unknown error")%string)
      end
  end.

Record VerifyContext : Type := mkVerifyContext {
  vc_quote : option string;
  vc_character : option string;
  vc_anime : option string;
  vc_apiKey : option string
}.

Record Verdict : Type := mkVerdict {
  verified : bool;
  confidence : Confidence;
  matches : list Quote;
  message : string
}.

(** One look-up of [verifyAnimeQuoteTool]: the value of [quotes] after
    the [if (response.ok)] statement. *)
Definition lookupQuotes (net : Network) (u : endpoint)
  (apiKey : option string) (quotes : list Quote) : result (list Quote) :=
  match net (withKey u apiKey) with
  | FetchRejects e => Throw e
  | Response status json =>
      if ok status then apiResponse <- json ;; parseApiResponse apiResponse
      else Ret quotes
  end.

(** The candidates gathered by the tool: by character first, by anime
    only when that gave nothing. *)
Definition gatherQuotes (net : Network) (context : VerifyContext)
  : result (list Quote) :=
  let quotes : list Quote := [] in
  quotes <- match asTruthy (vc_character context) with
            | Some c =>
                lookupQuotes net (QuotesByCharacter c None)
                  (vc_apiKey context) quotes
            | None => Ret quotes
            end ;;
  match asTruthy (vc_anime context) with
  | Some a =>
      if (List.length quotes =? 0)%nat then
        lookupQuotes net (QuotesAnimeTitle a) (vc_apiKey context) quotes
      else Ret quotes
  | None => Ret quotes
  end.

(** [v.toLowerCase()]: only a string has the method. *)
Definition lowerOf (v : value) : result string :=
  match v with
  | VString s => Ret (toLowerCase s)
  | VUndefined | VNull => x <- getProp v "toLowerCase" ;; Ret EmptyString
  | _ => Throw (Error "q.quote.toLowerCase is not a function")
  end.

(** The filter callback: [q.quote.toLowerCase().includes(quoteText) ||
    quoteText.includes(q.quote.toLowerCase())]. *)
Definition matchesQuote (quoteText : string) (q : Quote) : result bool :=
  l <- lowerOf (quote q) ;;
  if includes l quoteText then Ret true
  else l' <- lowerOf (quote q) ;; Ret (includes quoteText l').

Fixpoint filterM {A : Type} (f : A -> result bool) (l : list A)
  : result (list A) :=
  match l with
  | [] => Ret []
  | a :: r =>
      b <- f a ;; rs <- filterM f r ;; Ret (if b then a :: rs else rs)
  end.

Definition copyQuote (q : Quote) : Quote :=
  mkQuote (quote q) (anime q) (character q).

Definition notFoundMessage : string :=
  "Quote not found in the database. It may not exist, or the character/anime name might be slightly different.".

Definition notFound (context : VerifyContext) : Verdict :=
  mkVerdict false (if truthyStr (vc_quote context) then high else medium) []
    notFoundMessage.

(** The [try] block of [verifyAnimeQuoteTool.execute]. *)
Definition verifyAnimeQuote_try (net : Network) (context : VerifyContext)
  : result Verdict :=
  quotes <- gatherQuotes net context ;;
  match asTruthy (vc_quote context) with
  | Some qv =>
      let quoteText := trim (toLowerCase qv) in
      matchingQuotes <- filterM (matchesQuote quoteText) quotes ;;
      if (0 <? List.length matchingQuotes)%nat then
        Ret (mkVerdict true high (map copyQuote matchingQuotes)
               ("Quote verified! Found "
                ++ ofNat (List.length matchingQuotes)
                ++ " matching quote(s).")%string)
      else Ret (notFound context)
  | None =>
      if (0 <? List.length quotes)%nat then
        Ret (mkVerdict true medium (map copyQuote (firstn 10 quotes))
               ("Found " ++ ofNat (List.length quotes)
                ++ " quote(s) for the specified criteria.")%string)
      else Ret (notFound context)
  end.

Definition errorVerdict (e : exn) : Verdict :=
  mkVerdict false low []
    ("Error during verification: "
     ++ match e with
        | Error msg => msg
        | NonError => "Unknown error"
        end)%string.

Definition cannotVerify : Verdict :=
  mkVerdict false low []
    "Cannot verify: Please provide at least a quote, character, or anime name.".

(** [verifyAnimeQuoteTool.execute] *)
Definition verifyAnimeQuoteTool (net : Network) (context : VerifyContext)
  : Verdict :=
  if negb (truthyStr (vc_quote context))
     && negb (truthyStr (vc_character context))
     && negb (truthyStr (vc_anime context))
  then cannotVerify
  else
    match verifyAnimeQuote_try net context with
    | Ret v => v
    | Throw e => errorVerdict e
    end.

End Tools.

(** ** The specification's vocabulary

    Definitions that follow the words of the specification; the theorems
    below compare them with the code. *)

Module Spec.

Import JsString Workflow.

(** "lower-cased and trimmed of leading/trailing whitespace" *)
Definition normalize (s : string) : string := trim (toLowerCase s).

Definition member (w : string) (l : list string) : bool :=
  if in_dec string_dec w l then true else false.

(** "the whitespace-split word sets": a set is a duplicate-free list. *)
Definition wordSet (s : string) : list string :=
  nodup string_dec (splitWs s).

Definition intersection (a b : list string) : list string :=
  filter (fun w => member w b) a.

Definition union (a b : list string) : list string :=
  nodup string_dec (a ++ b).

(** "|intersection| / |union|" *)
Definition overlap (a b : list string) : Q :=
  (inject_Z (Z.of_nat (List.length (intersection a b)))
   / inject_Z (Z.of_nat (List.length (union a b))))%Q.

(** The three rules, first applicable rule first. *)
Definition classify (query cand : string) : option MatchType :=
  let c := normalize cand in
  let q := normalize query in
  if String.eqb c q then Some exact
  else if includes c q || includes q c then Some partial
  else if Qle_bool (1 # 2)%Q (overlap (wordSet c) (wordSet q))
          && (2 <? List.length (wordSet c))%nat
          && (2 <? List.length (wordSet q))%nat
  then Some similar
  else None.

(** A candidate classified [t] is reported with that type. *)
Definition classified (query : string) (c : AnimechanQuote) : list Match :=
  match classify query (quote c) with
  | Some t => [withType c t]
  | None => []
  end.

(** A match list contains a match of type [t]. *)
Definition hasType (t : MatchType) (ms : list Match) : Prop :=
  exists m, In m ms /\ matchType m = t.

(** The records one look-up contributes to the pool: those of a
    successful response, none otherwise. *)
Definition contributed (r : fetched Body) : list AnimechanQuote :=
  match r with
  | Response status (Ret (QuoteArray data)) => if ok status then data else []
  | _ => []
  end.

(** "A failed or non-2xx HTTP response (or a thrown network/JSON-parse
    error)"; a body that is not an array counts as one that does not
    parse. *)
Definition failed (r : fetched Body) : Prop :=
  match r with
  | FetchRejects _ => True
  | Response status json =>
      ok status = false \/
      match json with
      | Throw _ | Ret NotAnArray => True
      | Ret (QuoteArray _) => False
      end
  end.

(** The character-sourced and the anime-sourced list of a request: what
    the look-up of a supplied name contributes. *)
Definition characterSourced (net : Network) (character apiKey : option string)
  : list AnimechanQuote :=
  match asTruthy character with
  | Some c => contributed (net (withKey (QuotesByCharacter c (Some 1)) apiKey))
  | None => []
  end.

Definition animeSourced (net : Network) (animeTitle apiKey : option string)
  : list AnimechanQuote :=
  match asTruthy animeTitle with
  | Some a => contributed (net (withKey (QuotesByAnime a (Some 1)) apiKey))
  | None => []
  end.

(** "append it only if no already-present record has identical text",
    read against the character-sourced list. *)
Definition notIn (chars : list AnimechanQuote) (q : AnimechanQuote) : bool :=
  negb (member (quote q) (map quote chars)).

(** "no two entries have identical text" *)
Definition distinctTexts (pool : list AnimechanQuote) : Prop :=
  forall i j qi qj,
    nth_error pool i = Some qi -> nth_error pool j = Some qj ->
    i <> j -> quote qi <> quote qj.

(** *** The tools' side *)

(** A value that is neither [null] nor [undefined]. *)
Definition present (v : Tools.value) : Prop :=
  v <> Tools.VNull /\ v <> Tools.VUndefined.

(** The QuoteRecord of a wrapper item: text from [content], names from
    [.name] / [.altName], ["Unknown"] when they do not resolve. *)
Definition wrapperRecord (item : Tools.value) : Tools.Quote :=
  let a := Tools.optProp item "anime" in
  let c := Tools.optProp item "character" in
  Tools.mkQuote (Tools.optProp item "content")
    (Tools.orElse (Tools.optProp a "name")
       (Tools.orElse (Tools.optProp a "altName") Tools.Unknown))
    (Tools.orElse (Tools.optProp c "name") Tools.Unknown).

(** A name of the bare array shape: a plain string, or an object with a
    [.name], or ["Unknown"]. *)
Definition legacyName (v : Tools.value) : Tools.value :=
  if Tools.typeofString v then v
  else Tools.orElse (Tools.optProp v "name") Tools.Unknown.

(** The QuoteRecord of an item of the bare array shape. *)
Definition legacyRecord (item : Tools.value) : Tools.Quote :=
  Tools.mkQuote
    (Tools.orElse (Tools.optProp item "quote") (Tools.optProp item "content"))
    (legacyName (Tools.optProp item "anime"))
    (legacyName (Tools.optProp item "character")).

(** The substring test of the tool on a record whose text is a string. *)
Definition matchesText (quoteText : string) (q : Tools.Quote) : bool :=
  match Tools.quote q with
  | Tools.VString s =>
      includes (toLowerCase s) quoteText || includes quoteText (toLowerCase s)
  | _ => false
  end.

(** The caller supplied a quote, a character or an anime. *)
Definition provided (context : Tools.VerifyContext) : bool :=
  truthyStr (Tools.vc_quote context)
  || truthyStr (Tools.vc_character context)
  || truthyStr (Tools.vc_anime context).

End Spec.

(** Steps 1 and 2 in sequence: the pool the verify step receives. *)
Definition searchThenCollect (net : Workflow.Network)
  (input : Workflow.SearchInput) : result Workflow.CollectOutput :=
  s <- Workflow.searchQuotes net (Some input) ;;
  Workflow.collectQuotes net (Some s).

(** ** Concrete requests and responses used by the examples below *)

Module Examples.

Import Workflow.

Definition lightQuote : AnimechanQuote :=
  mkQuote "I'll become the god of this new world" "Death Note" "Light Yagami".

Definition scenarioA : VerifyInput :=
  mkVerifyInput "I'll become the god of this new world" [lightQuote]
    (Some "Light Yagami") None.

Definition foxQuote : AnimechanQuote :=
  mkQuote "the quick brown fox jumps" "Fables" "Narrator".

Definition believe1 : AnimechanQuote :=
  mkQuote "Believe it!" "Naruto" "Naruto Uzumaki".

Definition believe2 : AnimechanQuote :=
  mkQuote "Believe it!" "Naruto Shippuden" "Naruto Uzumaki".

Definition hardWork : AnimechanQuote :=
  mkQuote "Hard work is worthless for those that don't believe in themselves."
    "Naruto" "Naruto Uzumaki".

Definition narutoInput : SearchInput :=
  mkSearchInput "Believe it!" (Some "Naruto Uzumaki") None None.

(** The character page carries the same line twice. *)
Definition repeatingNet : Network :=
  fun r =>
    match url r with
    | QuotesByCharacter _ _ =>
        Response 200 (Ret (QuoteArray [believe1; believe2]))
    | _ => Response 404 (Throw (Error "Unexpected end of JSON input"))
    end.

Definition bothInput : SearchInput :=
  mkSearchInput "Believe it!" (Some "Naruto Uzumaki") (Some "Naruto") None.

(** The character look-up is rejected, the anime look-up answers. *)
Definition characterDownNet : Network :=
  fun r =>
    match url r with
    | QuotesByCharacter _ _ => FetchRejects (Error "fetch failed")
    | _ => Response 200 (Ret (QuoteArray [believe1; hardWork]))
    end.

Definition distinctOutput : SearchOutput :=
  mkSearchOutput "Believe it!" (Some "Naruto Uzumaki") (Some "Naruto")
    [believe1] None.

Definition noAgent : Mastra := mkMastra (fun _ => None).

Definition failingAgent : Mastra :=
  mkMastra (fun _ => Some (mkAgent (fun _ => Throw (Error "model unavailable")))).

Definition emptyNet : Network :=
  fun _ => Response 200 (Ret (QuoteArray [])).

Definition noSourceInput : SearchInput :=
  mkSearchInput "Believe it!" None None None.

Import Tools.

Definition dreamItem (n : string) : value :=
  VObject [("quote", VString ("Never give up on your dream " ++ n)%string);
           ("anime", VString "One Piece");
           ("character", VString "Monkey D. Luffy")].

Definition sixItems : list value :=
  map dreamItem ["1"; "2"; "3"; "4"; "5"; "6"].

Definition sixNet : Tools.Network :=
  fun r =>
    match url r with
    | QuotesByCharacter _ _ => Response 200 (Ret (VArray sixItems))
    | _ => Response 404 (Ret (VObject [("error", VString "Not found")]))
    end.

Definition dreamContext : VerifyContext :=
  mkVerifyContext (Some "dream") (Some "Monkey D. Luffy") None None.

Definition luffyContext : VerifyContext :=
  mkVerifyContext None (Some "Monkey D. Luffy") None None.

(** Wrapper shape, one item without [content]. *)
Definition noContentBody : value :=
  VObject [("status", VString "success");
           ("data", VArray [VObject [("anime", VObject [("id", VNumber 1);
                                                         ("name", VString "Naruto")]);
                                     ("character", VObject [("id", VNumber 2)])]])].


(** A body of no known shape. *)
Definition strangeBody : value :=
  VObject [("message", VString "service moved")].

Definition strangeNet : Tools.Network :=
  fun _ => Response 200 (Ret strangeBody).

Definition luffyQuotes : QuotesContext :=
  mkQuotesContext "Monkey D. Luffy" None None.

Definition wrapperBody : value :=
  VObject [("status", VString "success");
           ("data", VArray [VObject [("content", VString "Believe it!");
                                     ("anime", VObject [("name", VString "Naruto")]);
                                     ("character", VObject [("name", VString "Naruto Uzumaki")])]])].

Definition downNet : Tools.Network :=
  fun _ => FetchRejects (Error "fetch failed").

End Examples.

(** ** The other look-up tools of [animechan-tools.ts] *)

Module LookupTools.

Import JsString Tools.

(** The [if (!response.ok)] block of the look-up tools: the body is read
    and an [Error] is thrown with the API's [error] text, or with the
    status when there is none. *)
Definition throwApiError {A : Type} (status : nat) (json : result value)
  : result A :=
  errorData <- json ;;
  err <- getProp errorData "error" ;;
  Throw (Error (toStringV
           (orElse err
              (VString ("API request failed with status "
                        ++ ofNat status)%string)))).

Record AnimeContext : Type := mkAnimeContext {
  ac_anime : string;
  ac_page : option nat;
  ac_apiKey : option string
}.

(** The [try] block of [getQuotesByAnimeTool.execute]. *)
Definition getQuotesByAnime_try (net : Network) (context : AnimeContext)
  : result QuotesOutput :=
  match net (withKey (QuotesByAnime (ac_anime context)
                        (Some (pageOr1 (ac_page context))))
               (ac_apiKey context)) with
  | FetchRejects e => Throw e
  | Response status json =>
      if negb (ok status) then throwApiError status json
      else
        apiResponse <- json ;;
        quotesArray <-
          (if isWrapper apiResponse then
             arrayMap "apiResponse.data" (optProp apiResponse "data")
               strictWrapperItem
           else if isArray apiResponse then
             arrayMap "apiResponse" apiResponse legacyItem
           else Throw (Error unexpectedFormat)) ;;
        Ret (mkQuotesOutput quotesArray (pageOr1 (ac_page context)))
  end.

(** The [catch] of a look-up tool: every exception is thrown again as an
    [Error] behind the tool's prefix. *)
Definition rethrow {A : Type} (prefix : string) (r : result A) : result A :=
  match r with
  | Ret a => Ret a
  | Throw (Error msg) => Throw (Error (prefix ++ msg)%string)
  | Throw NonError => Throw (Error (prefix ++ "Unknown error")%string)
  end.

(** [getQuotesByAnimeTool.execute] *)
Definition getQuotesByAnimeTool (net : Network) (context : AnimeContext)
  : result QuotesOutput :=
  rethrow ("Failed to fetch quotes for anime " ++ Tools.dq
           ++ ac_anime context ++ Tools.dq ++ ": ")%string
    (getQuotesByAnime_try net context).

(** The answer of [GET /quotes/random], by the [x-api-key] header sent. *)
Definition RandomNetwork := option string -> fetched value.

(** [apiResponse && typeof apiResponse === 'object' &&
    'status' in apiResponse] *)
Definition hasStatus (apiResponse : value) : bool :=
  truthy apiResponse && typeofObject apiResponse
  && hasIn "status" apiResponse.

(** [apiResponse.status === 'success'] *)
Definition statusIsSuccess (apiResponse : value) : bool :=
  match optProp apiResponse "status" with
  | VString s => String.eqb s "success"
  | _ => false
  end.

(** [items[0]] *)
Definition firstOf (v : value) : value :=
  match v with
  | VArray (x :: _) => x
  | _ => VUndefined
  end.

(** [Array.isArray(apiResponse) && apiResponse.length > 0] *)
Definition nonEmptyArray (v : value) : bool :=
  match v with
  | VArray (_ :: _) => true
  | _ => false
  end.

(** The shape chain of [getRandomQuoteTool]. *)
Definition randomQuoteData (apiResponse : value) : result Quote :=
  if hasStatus apiResponse && statusIsSuccess apiResponse
     && truthy (optProp apiResponse "data")
  then wrapperItem (optProp apiResponse "data")
  else if hasStatus apiResponse && truthy (optProp apiResponse "status")
          && isArray (optProp apiResponse "data")
  then wrapperItem (firstOf (optProp apiResponse "data"))
  else if truthy apiResponse && typeofObject apiResponse then
    if nonEmptyArray apiResponse then legacyItem (firstOf apiResponse)
    else legacyItem apiResponse
  else Throw (Error unexpectedFormat).

(** The [try] block of [getRandomQuoteTool.execute]. *)
Definition getRandomQuote_try (net : RandomNetwork) (apiKey : option string)
  : result Quote :=
  match net (asTruthy apiKey) with
  | FetchRejects e => Throw e
  | Response status json =>
      if negb (ok status) then throwApiError status json
      else
        apiResponse <- json ;;
        quoteData <- randomQuoteData apiResponse ;;
        Ret (mkQuote (quote quoteData) (anime quoteData)
               (character quoteData))
  end.

(** [getRandomQuoteTool.execute] *)
Definition getRandomQuoteTool (net : RandomNetwork) (apiKey : option string)
  : result Quote :=
  rethrow "Failed to fetch random quote: " (getRandomQuote_try net apiKey).

(** Two results that agree on the quotes returned, or throw the same. *)
Definition sameQuotes (a b : result QuotesOutput) : Prop :=
  match a, b with
  | Ret x, Ret y => quotes x = quotes y
  | Throw e, Throw e' => e = e'
  | _, _ => False
  end.

End LookupTools.

(** ** [r2-storage-service.ts] *)

Module Storage.

Import JsString.

(** [s.split(sep)] for a one-character separator. *)
Fixpoint splitOnFrom (sep : ascii) (s : string) (cur : list ascii)
  : list string :=
  match s with
  | EmptyString => [string_of_list_ascii (rev cur)]
  | String c r =>
      if Ascii.eqb c sep then
        string_of_list_ascii (rev cur) :: splitOnFrom sep r []
      else splitOnFrom sep r (c :: cur)
  end.

Definition splitOn (sep : ascii) (s : string) : list string :=
  splitOnFrom sep s [].

(** [xs.pop()]: the last element, when there is one. *)
Fixpoint pop (xs : list string) : option string :=
  match xs with
  | [] => None
  | [x] => Some x
  | _ :: r => pop r
  end.

(** What [types[key]] evaluates to: a content type of the table, or a
    member inherited from [Object.prototype]. *)
Inductive TableEntry : Type :=
| Mime (contentType : string)
| Inherited (member : string).

Definition types : list (string * string) :=
  [("pdf", "application/pdf");
   ("txt", "text/plain");
   ("json", "application/json");
   ("md", "text/markdown");
   ("docx",
    "application/vnd.openxmlformats-officedocument.wordprocessingml.document");
   ("doc", "application/msword");
   ("csv", "text/csv");
   ("png", "image/png");
   ("jpg", "image/jpeg");
   ("jpeg", "image/jpeg");
   ("gif", "image/gif")].

Definition objectPrototype : list string :=
  ["constructor"; "__defineGetter__"; "__defineSetter__"; "hasOwnProperty";
   "__lookupGetter__"; "__lookupSetter__"; "isPrototypeOf";
   "propertyIsEnumerable"; "toString"; "valueOf"; "__proto__";
   "toLocaleString"].

Fixpoint assoc (k : string) (table : list (string * string)) : option string :=
  match table with
  | [] => None
  | (k', v) :: r => if String.eqb k k' then Some v else assoc k r
  end.

(** [types[key]]: an own property first, then the prototype. *)
Definition typesAt (key : string) : option TableEntry :=
  match assoc key types with
  | Some t => Some (Mime t)
  | None =>
      if existsb (String.eqb key) objectPrototype then Some (Inherited key)
      else None
  end.

(** [getContentType]: every entry of the table and every inherited member
    is truthy, so [||] only replaces a missing one. *)
Definition getContentType (fileName : string) : TableEntry :=
  let ext := option_map toLowerCase (pop (splitOn "." fileName)) in
  let key := match ext with
             | Some e => e
             | None => EmptyString
             end in
  match typesAt key with
  | Some t => t
  | None => Mime "application/octet-stream"
  end.

Definition Buffer := list Byte.byte.

Record PutObjectCommand : Type := mkPutObject {
  Bucket : string;
  Key : string;
  Body : Buffer;
  ContentType : TableEntry
}.

(** The configured service: its bucket, and what [client.send] answers to
    a put. *)
Record R2StorageService : Type := mkService {
  bucket : string;
  send : PutObjectCommand -> result unit
}.

(** [upload(fileBuffer, fileName, folder = 'pdfs')]; the log line for a
    large file is left out. *)
Definition upload (service : R2StorageService) (fileBuffer : Buffer)
  (fileName : string) (folder : option string) : result string :=
  let folder := match folder with
                | Some f => f
                | None => "pdfs"
                end in
  let key := (folder ++ "/" ++ fileName)%string in
  let command := mkPutObject (bucket service) key fileBuffer
                   (getContentType fileName) in
  _ <- send service command ;;
  Ret key.

End Storage.

(** ** The document ingestion workflow *)

Module Ingestion.

Import JsString JsColl Storage.

(** [inputData.pdfFile]: a buffer, or a string (URL or path). *)
Inductive PdfFile : Type :=
| FromBuffer (b : Buffer)
| FromString (s : string).

Record ExtractInput : Type := mkExtractInput {
  pdfFile : PdfFile;
  ei_fileName : option string;
  ei_userId : option string
}.

(** What [pdf-parse] returns, as far as the step reads it. *)
Record PdfInfo : Type := mkPdfInfo {
  Title : option string;
  Author : option string;
  CreationDate : option string
}.

Record PdfData : Type := mkPdfData {
  text : string;
  numpages : nat;
  info : option PdfInfo
}.

(** Outcome of [fetch(url)] and [response.arrayBuffer()]. *)
Inductive PdfFetched : Type :=
| PdfFetchRejects (e : exn)
| PdfResponse (status : nat) (statusText : string)
    (arrayBuffer : result Buffer).

(** The collaborators of the step.  [randomUUID] is the identifier this run
    draws; [toISOString s] is [new Date(s).toISOString()]. *)
Record Env : Type := mkEnv {
  fetchPdf : string -> PdfFetched;
  readFile : string -> result Buffer;
  pdfParse : Buffer -> result PdfData;
  randomUUID : string;
  toISOString : string -> result string;
  r2Storage : R2StorageService
}.

Record Metadata : Type := mkMetadata {
  pages : nat;
  md_title : option string;
  md_author : option string;
  creationDate : option string
}.

Record ExtractOutput : Type := mkExtractOutput {
  documentId : string;
  textContent : string;
  metadata : Metadata;
  filePath : string;
  fileSize : nat
}.

(** [s.startsWith('http://') || s.startsWith('https://')] *)
Definition isUrl (s : string) : bool :=
  String.prefix "http://" s || String.prefix "https://" s.

(** The bytes of the document, by the kind of input. *)
Definition readPdf (env : Env) (file : PdfFile) : result Buffer :=
  match file with
  | FromBuffer b => Ret b
  | FromString s =>
      if isUrl s then
        match fetchPdf env s with
        | PdfFetchRejects e => Throw e
        | PdfResponse status statusText arrayBuffer =>
            if negb (ok status) then
              Throw (Error ("Failed to fetch PDF: " ++ statusText)%string)
            else arrayBuffer
        end
      else readFile env s
  end.

(** [inputData.fileName || `document-${documentId}.pdf`] *)
Definition storedName (fileName : option string) (id : string) : string :=
  match asTruthy fileName with
  | Some n => n
  | None => ("document-" ++ id ++ ".pdf")%string
  end.

(** [inputData.userId ? `users/${inputData.userId}/pdfs` : 'pdfs'] *)
Definition storedFolder (userId : option string) : string :=
  match asTruthy userId with
  | Some u => ("users/" ++ u ++ "/pdfs")%string
  | None => "pdfs"
  end.

(** [info?.CreationDate ? new Date(info.CreationDate).toISOString()
    : undefined] *)
Definition isoCreationDate (env : Env) (i : option PdfInfo)
  : result (option string) :=
  match i with
  | Some i' =>
      match asTruthy (CreationDate i') with
      | Some d => iso <- toISOString env d ;; Ret (Some iso)
      | None => Ret None
      end
  | None => Ret None
  end.

(** Step 1, [extractPdfText.execute]. *)
Definition extractPdfText (env : Env) (inputData : ExtractInput)
  : result ExtractOutput :=
  pdfBuffer <- readPdf env (pdfFile inputData) ;;
  pdfData <- pdfParse env pdfBuffer ;;
  let id := randomUUID env in
  let fileName := storedName (ei_fileName inputData) id in
  let folder := storedFolder (ei_userId inputData) in
  path <- upload (r2Storage env) pdfBuffer fileName (Some folder) ;;
  created <- isoCreationDate env (info pdfData) ;;
  Ret (mkExtractOutput id (text pdfData)
         (mkMetadata (numpages pdfData)
            (match info pdfData with Some i => Title i | None => None end)
            (match info pdfData with Some i => Author i | None => None end)
            created)
         path (List.length pdfBuffer)).

End Ingestion.

(** *** Steps 2 and 3 *)

Module Chunking.

Import JsString JsColl Storage Tools.

(** An object is the list of its own properties; statements read it by
    key, so the place of a key in the list carries no meaning. *)
Definition Object := list (string * value).

Fixpoint indexedFrom (i : nat) (items : list value) : Object :=
  match items with
  | [] => []
  | x :: r => (ofNat i, x) :: indexedFrom (S i) r
  end.

Fixpoint unitsFrom (i : nat) (s : string) : Object :=
  match s with
  | EmptyString => []
  | String c r => (ofNat i, VString (String c EmptyString)) :: unitsFrom (S i) r
  end.

(** The own enumerable properties that [{...v}] copies. *)
Definition ownProps (v : value) : Object :=
  match v with
  | VObject props => props
  | VArray items => indexedFrom 0 items
  | VString s => unitsFrom 0 s
  | _ => []
  end.

(** [{...target, ...source}]: a later key replaces an earlier one. *)
Definition spread (target source : Object) : Object :=
  fold_left mapStep source target.

(** A chunk object of the chunker: [ref] is its identity, which is what
    [indexOf] compares. *)
Record Chunk : Type := mkChunk {
  ref : nat;
  chunkText : string;
  chunkMetadata : value
}.

(** [chunks.indexOf(chunk)] *)
Fixpoint indexOfFrom (i : Z) (chunks : list Chunk) (c : Chunk) : Z :=
  match chunks with
  | [] => (-1)%Z
  | x :: r => if (ref x =? ref c)%nat then i else indexOfFrom (i + 1)%Z r c
  end.

Definition indexOf (chunks : list Chunk) (c : Chunk) : Z :=
  indexOfFrom 0%Z chunks c.

Record ChunkInput : Type := mkChunkInput {
  ci_documentId : string;
  ci_textContent : string;
  ci_metadata : value;
  ci_filePath : string;
  ci_fileSize : nat
}.

Record OutChunk : Type := mkOutChunk {
  oc_text : string;
  oc_metadata : Object
}.

Record ChunkOutput : Type := mkChunkOutput {
  co_documentId : string;
  co_chunks : list OutChunk;
  originalMetadata : value;
  co_filePath : string
}.

(** [MDocument.fromText(text, metadata)] followed by [doc.chunk(...)] with
    the fixed options of the step. *)
Definition Chunker := string -> Object -> result (list Chunk).

(** [{ documentId, ...inputData.metadata, filePath }] *)
Definition documentMetadata (i : ChunkInput) : Object :=
  spread (spread [("documentId", VString (ci_documentId i))]
            (ownProps (ci_metadata i)))
    [("filePath", VString (ci_filePath i))].

(** [{ ...chunk.metadata, documentId, chunkIndex, totalChunks }] *)
Definition chunkMetadataOf (documentId : string) (chunks : list Chunk)
  (c : Chunk) : Object :=
  spread (ownProps (chunkMetadata c))
    [("documentId", VString documentId);
     ("chunkIndex", VNumber (indexOf chunks c));
     ("totalChunks", VNumber (Z.of_nat (List.length chunks)))].

(** Step 2, [chunkDocument.execute]. *)
Definition chunkDocument (chunker : Chunker) (inputData : ChunkInput)
  : result ChunkOutput :=
  chunks <- chunker (ci_textContent inputData) (documentMetadata inputData) ;;
  Ret (mkChunkOutput (ci_documentId inputData)
         (map (fun c => mkOutChunk (chunkText c)
                          (chunkMetadataOf (ci_documentId inputData) chunks c))
            chunks)
         (ci_metadata inputData) (ci_filePath inputData)).

Record StoreOutput : Type := mkStoreOutput {
  so_documentId : string;
  chunksCount : nat;
  stored : bool
}.

Fixpoint summaryChunks (i : nat) (chunks : list OutChunk) : list value :=
  match chunks with
  | [] => []
  | c :: r =>
      VObject [("index", VNumber (Z.of_nat i));
               ("textLength", VNumber (Z.of_nat (String.length (oc_text c))));
               ("metadata", VObject (oc_metadata c))]
      :: summaryChunks (S i) r
  end.

(** The [summary] object of step 3; [createdAt] is the clock's
    [new Date().toISOString()]. *)
Definition summaryOf (createdAt : string) (i : ChunkOutput) : value :=
  VObject [("documentId", VString (co_documentId i));
           ("chunksCount", VNumber (Z.of_nat (List.length (co_chunks i))));
           ("metadata", originalMetadata i);
           ("filePath", VString (co_filePath i));
           ("createdAt", VString createdAt);
           ("chunks", VArray (summaryChunks 0 (co_chunks i)))].

(** The collaborators of step 3: the clock, and
    [Buffer.from(JSON.stringify(v, null, 2))]. *)
Record StoreEnv : Type := mkStoreEnv {
  now : string;
  stringify : value -> Buffer;
  storage : R2StorageService
}.

(** Step 3, [storeDocumentData.execute]. *)
Definition storeDocumentData (env : StoreEnv) (inputData : ChunkOutput)
  : result StoreOutput :=
  let summaryBuffer := stringify env (summaryOf (now env) inputData) in
  _ <- upload (storage env) summaryBuffer
         (co_documentId inputData ++ "-summary.json")%string
         (Some "metadata") ;;
  Ret (mkStoreOutput (co_documentId inputData)
         (List.length (co_chunks inputData)) true).

End Chunking.

(** *** The workflow of the three steps *)

Module IngestionWorkflow.

Import Storage Ingestion Chunking Tools.

Definition optString (o : option string) : value :=
  match o with
  | Some s => VString s
  | None => VUndefined
  end.

(** The [metadata] object of step 1, as step 2 receives it. *)
Definition metadataValue (m : Metadata) : value :=
  VObject [("pages", VNumber (Z.of_nat (pages m)));
           ("title", optString (md_title m));
           ("author", optString (md_author m));
           ("creationDate", optString (creationDate m))].

(** [.then(extractPdfText).then(chunkDocument).then(storeDocumentData)];
    steps 1 and 3 use the one storage service. *)
Definition documentIngestionWorkflow (env : Env) (chunker : Chunker)
  (clock : string) (toJson : value -> Buffer) (input : ExtractInput)
  : result StoreOutput :=
  e <- extractPdfText env input ;;
  c <- chunkDocument chunker
         (mkChunkInput (documentId e) (textContent e)
            (metadataValue (metadata e)) (filePath e) (fileSize e)) ;;
  storeDocumentData (mkStoreEnv clock toJson (r2Storage env)) c.

End IngestionWorkflow.

(** ** Vocabulary of the further properties *)

Module Vocabulary.

(** A text without a dot. *)
Fixpoint dotless (s : string) : bool :=
  match s with
  | EmptyString => true
  | String c r => negb (Ascii.eqb c ".") && dotless r
  end.

(** A text without an ASCII capital. *)
Fixpoint noCapital (s : string) : bool :=
  match s with
  | EmptyString => true
  | String c r =>
      negb (JsString.unit_in 65 90 (nat_of_ascii c)) && noCapital r
  end.

End Vocabulary.

(** ** Further concrete inputs *)

Module MoreExamples.

Import Workflow.

(** The anime page carries one line twice. *)
Definition repeatingAnimeNet : Workflow.Network :=
  fun r =>
    match url r with
    | QuotesByAnime _ _ =>
        Response 200
          (Ret (Workflow.QuoteArray [Examples.believe1; Examples.believe2]))
    | _ => Response 404 (Throw (Error "Unexpected end of JSON input"))
    end.

Definition animeOnlyOutput : Workflow.SearchOutput :=
  Workflow.mkSearchOutput "Believe it!" None (Some "Naruto") [] None.

Definition blankInput : VerifyInput :=
  mkVerifyInput "   " [Examples.lightQuote] None None.

Definition reportingMastra : Mastra :=
  mkMastra (fun _ => Some (mkAgent (fun _ => Ret "The quote could not be checked."))).

Import Tools LookupTools.

Definition bothContext : VerifyContext :=
  mkVerifyContext None (Some "Monkey D. Luffy") (Some "One Piece") None.

(** As [Examples.sixNet], with the anime endpoint down. *)
Definition sixNetAnimeDown : Tools.Network :=
  fun r =>
    match url r with
    | QuotesByCharacter _ _ => Response 200 (Ret (VArray Examples.sixItems))
    | _ => FetchRejects (Error "fetch failed")
    end.

Definition noContentNet : Tools.Network :=
  fun _ => Response 200 (Ret Examples.noContentBody).

Definition wrapperNet : Tools.Network :=
  fun _ => Response 200 (Ret Examples.wrapperBody).

Definition believeRecord : Quote :=
  mkQuote (VString "Believe it!") (VString "Naruto") (VString "Naruto Uzumaki").

Definition narutoAnime : AnimeContext := mkAnimeContext "Naruto" None None.

Definition randomBody : value :=
  VObject [("status", VString "success");
           ("data", VObject [("content", VString "Believe it!");
                             ("anime", VObject [("name", VString "Naruto")]);
                             ("character",
                              VObject [("name", VString "Naruto Uzumaki")])])].

Definition randomNet : RandomNetwork := fun _ => Response 200 (Ret randomBody).

Definition plainTextNet : RandomNetwork :=
  fun _ => Response 200 (Ret (VString "Too many requests")).

Definition quoteOnly : VerifyContext :=
  mkVerifyContext (Some "Believe it!") None None None.

(** The character look-up is refused, the anime look-up answers. *)
Definition refusedNet : Tools.Network :=
  fun r =>
    match url r with
    | QuotesByCharacter _ _ =>
        Response 404 (Ret (VObject [("error", VString "Not found")]))
    | _ => Response 200 (Ret Examples.wrapperBody)
    end.

Definition narutoContext : VerifyContext :=
  mkVerifyContext None (Some "Naruto Uzumaki") (Some "Naruto") None.

Import Storage Ingestion Chunking.

Definition twoBytes : Buffer := [Byte.x25; Byte.x50].

Definition acceptAll : R2StorageService :=
  mkService "study-files" (fun _ => Ret tt).

Definition goodEnv : Env :=
  mkEnv (fun _ => PdfFetchRejects (Error "fetch failed"))
    (fun _ => Throw (Error "ENOENT: no such file or directory"))
    (fun _ => Ret (mkPdfData "Chapter one. Chapter two." 1 None))
    "doc-1" (fun d => Ret d) acceptAll.

Definition badPdfEnv : Env :=
  mkEnv (fun _ => PdfFetchRejects (Error "fetch failed"))
    (fun _ => Throw (Error "ENOENT: no such file or directory"))
    (fun _ => Throw (Error "Invalid PDF structure"))
    "doc-1" (fun d => Ret d) acceptAll.

Definition bufferInput : ExtractInput :=
  mkExtractInput (FromBuffer twoBytes) None None.

Definition extracted : ExtractOutput :=
  mkExtractOutput "doc-1" "Chapter one. Chapter two."
    (mkMetadata 1 None None None) "pdfs/document-doc-1.pdf" 2.

Definition twoChunks : list Chunk :=
  [mkChunk 0 "Chapter one." (VObject [("documentId", VString "other")]);
   mkChunk 1 "Chapter two." VUndefined].

Definition twoChunker : Chunker := fun _ _ => Ret twoChunks.

Definition chunkInput : ChunkInput :=
  mkChunkInput "doc-1" "Chapter one. Chapter two." VUndefined
    "pdfs/document-doc-1.pdf" 2.

End MoreExamples.

(** * Proofs *)

(** Case analysis on every [if] of the goal. *)
Ltac break_ifs :=
  repeat match goal with
         | |- context [if ?c then _ else _] => destruct c
         end.

(** ** Strings *)

Module StringFacts.

Import JsString.

Lemma prefix_app t s : String.prefix t s = true <-> exists b, s = (t ++ b)%string.
Proof.
  revert s. induction t as [|a t IH]; intros [|a' s]; simpl.
  - split; [intros _; now exists EmptyString | reflexivity].
  - split; [intros _; now exists (String a' s) | reflexivity].
  - split; [discriminate | intros [b E]; discriminate].
  - destruct (Ascii.ascii_dec a a') as [->|Hne].
    + rewrite IH. split; intros [b E]; exists b; congruence.
    + split; [discriminate | intros [b E]; congruence].
Qed.

Lemma includes_eq s t :
  includes s t = String.prefix t s
                 || match s with
                    | EmptyString => false
                    | String _ r => includes r t
                    end.
Proof. destruct s; reflexivity. Qed.

Lemma includes_spec s t :
  includes s t = true <-> exists a b, s = (a ++ t ++ b)%string.
Proof.
  induction s as [|c s IH]; rewrite includes_eq.
  - rewrite orb_false_r, prefix_app. split.
    + intros [b E]. now exists EmptyString, b.
    + intros [a [b E]]. destruct a; [now exists b | discriminate].
  - rewrite orb_true_iff, prefix_app, IH. split.
    + intros [[b E] | [a [b E]]].
      * now exists EmptyString, b.
      * exists (String c a), b. simpl. now rewrite E.
    + intros [a [b E]]. destruct a as [|c' a]; simpl in E.
      * left. now exists b.
      * right. exists a, b. congruence.
Qed.

End StringFacts.

(** ** The workflow *)

Module WorkflowFacts.

Import JsString JsColl Workflow Spec StringFacts.

Lemma ofType_In t ms m : In m (ofType t ms) <-> In m ms /\ matchType m = t.
Proof.
  unfold ofType. rewrite filter_In. split; intros [H1 H2]; split; auto.
  - destruct (matchType m), t; simpl in H2; congruence.
  - subst. destruct (matchType m); reflexivity.
Qed.

Lemma ofType_pos t ms : (0 <? List.length (ofType t ms))%nat = true <-> hasType t ms.
Proof.
  rewrite Nat.ltb_lt. unfold hasType. split.
  - destruct (ofType t ms) as [|m r] eqn:E; simpl; [lia|]. intros _.
    exists m. apply ofType_In. rewrite E. now left.
  - intros [m Hm]. apply ofType_In in Hm.
    destruct (ofType t ms); simpl in *; [tauto | lia].
Qed.

Lemma ofType_zero t ms : (0 <? List.length (ofType t ms))%nat = false <-> ~ hasType t ms.
Proof.
  rewrite <- ofType_pos. destruct (0 <? List.length (ofType t ms))%nat; split; congruence.
Qed.

Lemma length_pos_nonempty {A} (l : list A) : (0 <? List.length l)%nat = true <-> l <> [].
Proof.
  destruct l; simpl; split; intro H;
    [discriminate H | contradiction | discriminate | reflexivity].
Qed.

Lemma ofType_nonempty t ms : (0 <? List.length (ofType t ms))%nat = true -> ms <> [].
Proof.
  intros H ->. discriminate H.
Qed.

Lemma firstn_nonempty {A} n (l : list A) : l <> [] -> firstn (S n) l <> [].
Proof.
  destruct l; [contradiction | discriminate].
Qed.

Lemma verifyQuote_matches (i : VerifyInput) :
  matches (verifyQuote i) = firstn 5 (findMatches (vi_quote i) (vi_allQuotes i)).
Proof.
  unfold verifyQuote.
  break_ifs;
    reflexivity.
Qed.

Lemma verifyQuote_verified_iff (i : VerifyInput) :
  verified (verifyQuote i) = true <-> matches (verifyQuote i) <> [].
Proof.
  rewrite verifyQuote_matches. unfold verifyQuote.
  set (ms := findMatches (vi_quote i) (vi_allQuotes i)).
  destruct (0 <? List.length (ofType exact ms))%nat eqn:He.
  { cbn [verified]. split; [intros _ | reflexivity].
    apply firstn_nonempty. eapply ofType_nonempty; eassumption. }
  destruct (0 <? List.length (ofType partial ms))%nat eqn:Hp.
  { cbn [verified]. split; [intros _ | reflexivity].
    apply firstn_nonempty. eapply ofType_nonempty; eassumption. }
  destruct (0 <? List.length ms)%nat eqn:Hm.
  { cbn [verified]. split; [intros _ | reflexivity].
    apply firstn_nonempty. now apply length_pos_nonempty. }
  cbn [verified]. destruct ms; [| discriminate Hm].
  split; [discriminate | intros H; now contradiction H].
Qed.

Lemma newSet_from_spec (l acc : list string) :
  NoDup acc ->
  NoDup (fold_left (fun s x => set_add string_dec x s) l acc)
  /\ forall x, In x (fold_left (fun s x => set_add string_dec x s) l acc)
               <-> In x acc \/ In x l.
Proof.
  revert acc. induction l as [|a l IH]; intros acc Hnd; simpl.
  - split; [assumption | intros x; tauto].
  - destruct (IH (set_add string_dec a acc)) as [H1 H2].
    { now apply set_add_nodup. }
    split; [assumption |].
    intros x. rewrite H2. rewrite set_add_iff. intuition congruence.
Qed.

Lemma newSet_NoDup l : NoDup (newSet l).
Proof. apply (newSet_from_spec l []). constructor. Qed.

Lemma newSet_In l x : In x (newSet l) <-> In x l.
Proof.
  unfold newSet. destruct (newSet_from_spec l [] (NoDup_nil _)) as [_ H].
  rewrite H. simpl. tauto.
Qed.

Lemma same_card (a b : list string) :
  NoDup a -> NoDup b -> (forall x, In x a <-> In x b) ->
  List.length a = List.length b.
Proof.
  intros Ha Hb H. apply Nat.le_antisymm; apply NoDup_incl_length; auto;
    intros x Hx; apply H; exact Hx.
Qed.

Lemma has_In s x : has s x = true <-> In x s.
Proof.
  unfold has. split; [apply set_mem_correct1 | apply set_mem_correct2].
Qed.

Lemma member_In w l : member w l = true <-> In w l.
Proof.
  unfold member. destruct (in_dec string_dec w l); split; auto; discriminate.
Qed.

Lemma size_wordSet s : size (newSet (splitWs s)) = List.length (wordSet s).
Proof.
  apply same_card.
  - apply newSet_NoDup.
  - apply NoDup_nodup.
  - intros x. unfold wordSet. rewrite newSet_In, nodup_In. tauto.
Qed.

Lemma similarity_overlap c q :
  similarity (newSet (splitWs c)) (newSet (splitWs q))
  = overlap (wordSet c) (wordSet q).
Proof.
  unfold similarity, overlap. f_equal; [| f_equal]; do 2 f_equal.
  - apply same_card.
    + apply newSet_NoDup.
    + apply NoDup_filter, NoDup_nodup.
    + intros x. unfold intersection, wordSet.
      rewrite newSet_In, !filter_In, has_In, member_In, !newSet_In, !nodup_In.
      tauto.
  - apply same_card.
    + apply newSet_NoDup.
    + apply NoDup_nodup.
    + intros x. unfold union, wordSet.
      rewrite newSet_In, nodup_In, !in_app_iff, !newSet_In, !nodup_In. tauto.
Qed.

Lemma matchStep_classified query ms q :
  matchStep (normalize query) ms q = ms ++ classified query q.
Proof.
  unfold matchStep, classified, classify. fold (normalize (quote q)).
  rewrite similarity_overlap, !size_wordSet.
  break_ifs;
    simpl; rewrite ?app_nil_r; reflexivity.
Qed.

Lemma fold_matchStep query l acc :
  fold_left (matchStep (normalize query)) l acc
  = acc ++ flat_map (classified query) l.
Proof.
  revert acc. induction l as [|q l IH]; intros acc; simpl.
  - now rewrite app_nil_r.
  - rewrite IH, matchStep_classified, <- app_assoc. reflexivity.
Qed.

Lemma findMatches_classified query pool :
  findMatches query pool = flat_map (classified query) (uniqueQuotes pool).
Proof.
  unfold findMatches. apply (fold_matchStep query _ []).
Qed.

Lemma mapSet_keys {V} k (v : V) m x :
  In x (map fst (mapSet k v m)) <-> x = k \/ In x (map fst m).
Proof.
  induction m as [|[k' v'] m IH]; simpl.
  - intuition congruence.
  - destruct (String.eqb_spec k k') as [->|Hne]; simpl.
    + intuition congruence.
    + rewrite IH. intuition congruence.
Qed.

Lemma mapSet_NoDup {V} k (v : V) m :
  NoDup (map fst m) -> NoDup (map fst (mapSet k v m)).
Proof.
  induction m as [|[k' v'] m IH]; simpl; intros Hnd.
  - constructor; [intros [] | constructor].
  - inversion Hnd as [|? ? Hnin Hnd']; subst.
    destruct (String.eqb_spec k k') as [->|Hne]; simpl.
    + constructor; assumption.
    + constructor; [| auto].
      rewrite mapSet_keys. intros [E|E]; [congruence | contradiction].
Qed.

Lemma mapSet_In {V} k (v : V) m e :
  In e (mapSet k v m) -> e = (k, v) \/ In e m.
Proof.
  induction m as [|[k' v'] m IH]; simpl.
  - intuition.
  - destruct (String.eqb_spec k k') as [->|Hne]; simpl; intuition.
Qed.

Lemma mapSet_fresh {V} k (v : V) m :
  ~ In k (map fst m) -> mapSet k v m = m ++ [(k, v)].
Proof.
  induction m as [|[k' v'] m IH]; simpl; intros Hnin; [reflexivity |].
  destruct (String.eqb_spec k k') as [->|Hne].
  - exfalso. apply Hnin. now left.
  - rewrite IH; [reflexivity | tauto].
Qed.

Section NewMap.
Context {V : Type}.

Lemma fold_mapSet_spec (es acc : list (string * V)) :
  NoDup (map fst acc) ->
  NoDup (map fst (fold_left mapStep es acc))
  /\ (forall x, In x (map fst (fold_left mapStep es acc))
                <-> In x (map fst acc) \/ In x (map fst es))
  /\ (forall e, In e (fold_left mapStep es acc) -> In e acc \/ In e es).
Proof.
  revert acc. induction es as [|[k v] es IH]; intros acc Hnd; simpl.
  - repeat split; auto; tauto.
  - destruct (IH (mapStep acc (k, v))) as (H1 & H2 & H3).
    { now apply mapSet_NoDup. }
    split; [exact H1 |]. split.
    + intros x. rewrite H2. unfold mapStep at 1. simpl. rewrite mapSet_keys.
      intuition congruence.
    + intros e He. apply H3 in He. destruct He as [He|He]; [| tauto].
      apply mapSet_In in He. simpl in He. intuition.
Qed.

Lemma fold_mapSet_fresh (es acc : list (string * V)) :
  NoDup (map fst (acc ++ es)) -> fold_left mapStep es acc = acc ++ es.
Proof.
  revert acc. induction es as [|[k v] es IH]; intros acc Hnd; simpl.
  - now rewrite app_nil_r.
  - assert (~ In k (map fst acc)) as Hk.
    { rewrite map_app in Hnd. simpl in Hnd.
      apply NoDup_remove_2 in Hnd. rewrite in_app_iff in Hnd. tauto. }
    unfold mapStep at 2. simpl. rewrite (mapSet_fresh _ _ _ Hk).
    rewrite IH; rewrite <- app_assoc; [reflexivity | exact Hnd].
Qed.
End NewMap.

Lemma entries_keys pool : map fst (entries pool) = map quote pool.
Proof. unfold entries. rewrite map_map. reflexivity. Qed.

Lemma entries_values pool : map snd (entries pool) = pool.
Proof. unfold entries. rewrite map_map. simpl. apply map_id. Qed.

Lemma uniqueQuotes_incl pool c : In c (uniqueQuotes pool) -> In c pool.
Proof.
  unfold uniqueQuotes, values, newMap. intros H.
  apply in_map_iff in H. destruct H as [[k v] [<- H]].
  destruct (fold_mapSet_spec (entries pool) [] (NoDup_nil _)) as (_ & _ & H3).
  apply H3 in H. destruct H as [[]|H].
  apply in_map_iff in H. destruct H as [q [E Hq]]. inversion E; subst. exact Hq.
Qed.

Lemma uniqueQuotes_keyed pool e :
  In e (newMap (entries pool)) -> fst e = quote (snd e).
Proof.
  intros H.
  destruct (fold_mapSet_spec (entries pool) [] (NoDup_nil _)) as (_ & _ & H3).
  apply H3 in H. destruct H as [[]|H].
  apply in_map_iff in H. destruct H as [q [<- _]]. reflexivity.
Qed.

Lemma uniqueQuotes_texts pool :
  map quote (uniqueQuotes pool) = map fst (newMap (entries pool)).
Proof.
  unfold uniqueQuotes, values. fold (entries pool). rewrite map_map.
  apply map_ext_in. intros e He. symmetry. exact (uniqueQuotes_keyed pool e He).
Qed.

Lemma uniqueQuotes_NoDup pool : NoDup (map quote (uniqueQuotes pool)).
Proof.
  rewrite uniqueQuotes_texts.
  apply (fold_mapSet_spec (entries pool) [] (NoDup_nil _)).
Qed.

Lemma uniqueQuotes_covers pool s :
  In s (map quote (uniqueQuotes pool)) <-> In s (map quote pool).
Proof.
  rewrite uniqueQuotes_texts.
  destruct (fold_mapSet_spec (entries pool) [] (NoDup_nil _)) as (_ & H2 & _).
  unfold newMap. rewrite H2, entries_keys. simpl. tauto.
Qed.

Lemma uniqueQuotes_distinct pool :
  NoDup (map quote pool) -> uniqueQuotes pool = pool.
Proof.
  intros Hnd. unfold uniqueQuotes, values, newMap. fold (entries pool).
  rewrite (fold_mapSet_fresh (entries pool) []).
  - apply entries_values.
  - simpl. now rewrite entries_keys.
Qed.

Lemma classified_In query c m :
  In m (classified query c) <->
  exists t, classify query (quote c) = Some t /\ m = withType c t.
Proof.
  unfold classified. destruct (classify query (quote c)) as [t|]; simpl.
  - split.
    + intros [<-|[]]. now exists t.
    + intros [t' [E ->]]. inversion E. now left.
  - split; [intros [] | intros [t [E _]]; discriminate].
Qed.

Lemma classified_texts query l s :
  In s (map m_quote (flat_map (classified query) l)) -> In s (map quote l).
Proof.
  rewrite !in_map_iff. intros [m [<- Hm]].
  apply in_flat_map in Hm. destruct Hm as [c [Hc Hm]].
  apply classified_In in Hm. destruct Hm as [t [_ ->]].
  exists c. split; [reflexivity | exact Hc].
Qed.

Lemma classified_NoDup query l :
  NoDup (map quote l) -> NoDup (map m_quote (flat_map (classified query) l)).
Proof.
  induction l as [|c l IH]; simpl; intros Hnd; [constructor |].
  inversion Hnd as [|? ? Hnin Hnd']; subst.
  rewrite map_app. unfold classified at 1.
  destruct (classify query (quote c)) as [t|]; simpl; [| auto].
  constructor; [| auto].
  intros Hin. apply Hnin. eapply classified_texts. exact Hin.
Qed.

Lemma classify_rules query s :
  let c := normalize s in
  let q := normalize query in
  (classify query s = Some exact <-> c = q) /\
  (classify query s = Some partial <->
     c <> q /\ (includes c q = true \/ includes q c = true)) /\
  (classify query s = Some similar <->
     c <> q /\ includes c q = false /\ includes q c = false /\
     (1 # 2 <= overlap (wordSet c) (wordSet q))%Q /\
     2 < List.length (wordSet c) /\ 2 < List.length (wordSet q)).
Proof.
  intros c q. unfold classify. fold c q.
  destruct (String.eqb_spec c q) as [E|E].
  { repeat split; try tauto; try discriminate; intros [H _]; contradiction. }
  destruct (includes c q) eqn:H1; simpl.
  { repeat split; try tauto; try discriminate; try congruence.
    intros (_ & H & _). discriminate. }
  destruct (includes q c) eqn:H2; simpl.
  { repeat split; try tauto; try discriminate; try congruence.
    intros (_ & _ & H & _). discriminate. }
  destruct (Qle_bool (1 # 2) (overlap (wordSet c) (wordSet q))) eqn:H3; simpl.
  2:{ repeat split; try discriminate; try congruence.
      - intros [_ [H|H]]; discriminate.
      - intros (_ & _ & _ & H & _). apply Qle_bool_iff in H. congruence. }
  apply Qle_bool_iff in H3.
  destruct (2 <? List.length (wordSet c))%nat eqn:H4; simpl.
  2:{ apply Nat.ltb_ge in H4. repeat split; try discriminate; try congruence.
      - intros [_ [H|H]]; discriminate.
      - intros (_ & _ & _ & _ & H & _). lia. }
  apply Nat.ltb_lt in H4.
  destruct (2 <? List.length (wordSet q))%nat eqn:H5; simpl.
  2:{ apply Nat.ltb_ge in H5. repeat split; try discriminate; try congruence.
      - intros [_ [H|H]]; discriminate.
      - intros (_ & _ & _ & _ & _ & H). lia. }
  apply Nat.ltb_lt in H5.
  repeat split; try discriminate; try congruence; try assumption.
  intros [_ [H|H]]; discriminate.
Qed.

Lemma copy_quotes (l : list AnimechanQuote) :
  map (fun q => mkQuote (quote q) (anime q) (character q)) l = l.
Proof.
  induction l as [|[t a c] l IH]; simpl; [reflexivity | now rewrite IH].
Qed.

Lemma has_member s x : has (newSet s) x = member x s.
Proof.
  destruct (member x s) eqn:E.
  - apply (proj2 (has_In _ _)), (proj2 (newSet_In _ _)), (proj1 (member_In _ _)), E.
  - destruct (has (newSet s) x) eqn:F; [| reflexivity].
    apply (proj1 (has_In _ _)) in F. apply (proj1 (newSet_In _ _)) in F.
    apply (proj2 (member_In _ _)) in F. congruence.
Qed.

Lemma fold_push_filter (p : AnimechanQuote -> bool) l acc :
  fold_left (fun all q => if p q then all ++ [q] else all) l acc
  = acc ++ filter p l.
Proof.
  revert acc. induction l as [|q l IH]; intros acc; simpl.
  - now rewrite app_nil_r.
  - rewrite IH. destruct (p q); [now rewrite <- app_assoc | reflexivity].
Qed.

Lemma mergeQuotes_filter chars animes :
  mergeQuotes chars animes = chars ++ filter (notIn chars) animes.
Proof.
  unfold mergeQuotes.
  rewrite (fold_push_filter
             (fun q => negb (has (newSet (map quote chars)) (quote q)))).
  f_equal. apply filter_ext. intros q. unfold notIn. now rewrite has_member.
Qed.

Lemma mergeQuotes_nil_l animes : mergeQuotes [] animes = animes.
Proof.
  rewrite mergeQuotes_filter. simpl. induction animes as [|q l IH];
    [reflexivity |]. cbn [filter]. unfold notIn at 1. simpl. now rewrite IH.
Qed.

Lemma mergeQuotes_nil_r chars : mergeQuotes chars [] = chars.
Proof. rewrite mergeQuotes_filter. apply app_nil_r. Qed.

Lemma mergeQuotes_NoDup chars animes :
  NoDup (map quote chars) -> NoDup (map quote animes) ->
  NoDup (map quote (mergeQuotes chars animes)).
Proof.
  intros Hc Ha. rewrite mergeQuotes_filter, map_app.
  apply NoDup_app; [exact Hc | |].
  - clear Hc. induction animes as [|q l IH]; simpl; [constructor |].
    inversion Ha as [|? ? Hnin Ha']; subst.
    destruct (notIn chars q); simpl; [| auto].
    constructor; [| auto]. intros Hin. apply Hnin.
    apply in_map_iff in Hin. destruct Hin as (x & E & Hx).
    apply filter_In in Hx. apply in_map_iff. exists x. tauto.
  - intros s Hs Hs'. apply in_map_iff in Hs'. destruct Hs' as (x & <- & Hx).
    apply filter_In in Hx. destruct Hx as [_ Hx]. unfold notIn in Hx.
    apply negb_true_iff in Hx.
    apply member_In in Hs. congruence.
Qed.

Lemma distinctTexts_NoDup pool : distinctTexts pool <-> NoDup (map quote pool).
Proof.
  unfold distinctTexts. rewrite NoDup_nth_error. split.
  - intros H i j Hi E. destruct (Nat.eq_dec i j) as [|Hne]; [assumption |].
    exfalso. rewrite !nth_error_map in E. rewrite length_map in Hi.
    destruct (nth_error pool i) as [qi|] eqn:Ei.
    2:{ apply nth_error_None in Ei. lia. }
    destruct (nth_error pool j) as [qj|] eqn:Ej; [| discriminate].
    simpl in E. apply (H i j qi qj Ei Ej Hne). now inversion E.
  - intros H i j qi qj Ei Ej Hne E. apply Hne, H.
    + rewrite length_map. apply nth_error_Some. congruence.
    + rewrite !nth_error_map, Ei, Ej. simpl. now rewrite E.
Qed.

Lemma searchQuotes_returns net i :
  searchQuotes net (Some i)
  = Ret (mkSearchOutput (si_quote i) (si_character i) (si_anime i)
           (characterSourced net (si_character i) (si_apiKey i))
           (si_apiKey i)).
Proof.
  unfold searchQuotes, characterSourced, searchQuotes_try, contributed.
  destruct (asTruthy (si_character i)) as [c|]; [| reflexivity].
  destruct (net _) as [e | st [[data|] | e]]; try reflexivity;
    destruct (ok st); simpl; try reflexivity.
  now rewrite copy_quotes.
Qed.

Lemma collectQuotes_returns net s :
  collectQuotes net (Some s)
  = Ret (mkCollectOutput (so_quote s)
           (mergeQuotes (so_characterQuotes s)
              (animeSourced net (so_anime s) (so_apiKey s)))
           (so_character s) (so_anime s)).
Proof.
  unfold collectQuotes, animeSourced, collectQuotes_try, contributed.
  destruct (asTruthy (so_anime s)) as [a|];
    [| now rewrite mergeQuotes_nil_r].
  destruct (net _) as [e | st [[data|] | e]];
    try (now rewrite mergeQuotes_nil_r);
    destruct (ok st); simpl; try (now rewrite mergeQuotes_nil_r).
  now rewrite copy_quotes.
Qed.

Lemma failed_contributes_nothing r : failed r -> contributed r = [].
Proof.
  destruct r as [e | st [[data|] | e]]; simpl; try reflexivity.
  intros [H | []]. now rewrite H.
Qed.

(** *** Properties of the workflow *)

(** C1. Decision table of the verify step, over the full match list: an
    exact match gives verified with high confidence; no exact but a
    partial one gives verified with medium confidence; only similar ones
    give verified with low confidence; with no match the verdict is not
    verified, with high confidence for a non-empty pool and medium for an
    empty one, and the same message in both cases. *)
Theorem verifyQuote_decision_table (i : VerifyInput) :
  let ms := findMatches (vi_quote i) (vi_allQuotes i) in
  let v := verifyQuote i in
  (hasType exact ms -> verified v = true /\ confidence v = high) /\
  (~ hasType exact ms -> hasType partial ms ->
     verified v = true /\ confidence v = medium) /\
  (~ hasType exact ms -> ~ hasType partial ms -> hasType similar ms ->
     verified v = true /\ confidence v = low) /\
  (ms = [] -> vi_allQuotes i <> [] ->
     verified v = false /\ confidence v = high
     /\ message v = Workflow.notFoundMessage) /\
  (ms = [] -> vi_allQuotes i = [] ->
     verified v = false /\ confidence v = medium
     /\ message v = Workflow.notFoundMessage).
Proof.
  intros ms v. subst v. unfold verifyQuote. fold ms.
  assert (Hnil : forall t, ms = [] -> ~ hasType t ms).
  { intros t -> [m [[] _]]. }
  destruct (0 <? List.length (ofType exact ms))%nat eqn:He;
    [apply ofType_pos in He | apply ofType_zero in He;
     destruct (0 <? List.length (ofType partial ms))%nat eqn:Hp;
     [apply ofType_pos in Hp | apply ofType_zero in Hp;
      destruct (0 <? List.length ms)%nat eqn:Hm]];
    cbn [verified confidence message];
    refine (conj _ (conj _ (conj _ (conj _ _))));
    try (intros; split; reflexivity); try (intros; contradiction);
    try (intros; exfalso; eapply Hnil; eassumption).
  - intros Hms _. apply length_pos_nonempty in Hm. contradiction.
  - intros Hms _. apply length_pos_nonempty in Hm. contradiction.
  - intros _ _ [m [Hin _]]. destruct ms; [destruct Hin | discriminate Hm].
  - intros _ Hpool. destruct (vi_allQuotes i); [contradiction | repeat split].
  - intros _ ->. repeat split.
Qed.

Lemma verifyQuote_decision_table_witness :
  verified (verifyQuote Examples.scenarioA) = true
  /\ confidence (verifyQuote Examples.scenarioA) = high.
Proof.
  apply (proj1 (verifyQuote_decision_table Examples.scenarioA)).
  exists (withType Examples.lightQuote exact).
  split; [vm_compute; left; reflexivity | reflexivity].
Defined.

(** C2. Every candidate of the pool is classified by its lower-cased,
    trimmed text against the lower-cased, trimmed query, by the first
    applicable of the three rules, and its text is reported exactly when a
    rule applies, once and with that classification; equal normalized
    texts always give [exact].  (The loop runs over the pool with one
    record per text; on a pool of distinct texts that is the pool itself,
    in order.) *)
Theorem matcher_classifies_each_candidate
  (query : string) (pool : list AnimechanQuote) (c : AnimechanQuote) :
  In c pool ->
  let ms := findMatches query pool in
  let cn := normalize (quote c) in
  let qn := normalize query in
  (forall t, (exists m, In m ms /\ m_quote m = quote c /\ matchType m = t)
             <-> classify query (quote c) = Some t) /\
  NoDup (map m_quote ms) /\
  (classify query (quote c) = Some exact <-> cn = qn) /\
  (classify query (quote c) = Some partial <->
     cn <> qn /\ (includes cn qn = true \/ includes qn cn = true)) /\
  (classify query (quote c) = Some similar <->
     cn <> qn /\ includes cn qn = false /\ includes qn cn = false /\
     (1 # 2 <= overlap (wordSet cn) (wordSet qn))%Q /\
     2 < List.length (wordSet cn) /\ 2 < List.length (wordSet qn)) /\
  (NoDup (map quote pool) -> ms = flat_map (classified query) pool).
Proof.
  intros Hc ms cn qn. subst ms. rewrite findMatches_classified.
  split; [| split].
  - intros t. split.
    + intros (m & Hm & Hq & Ht). apply in_flat_map in Hm.
      destruct Hm as (c' & _ & Hm). apply classified_In in Hm.
      destruct Hm as (t' & Hcl & ->). simpl in Hq, Ht.
      rewrite <- Hq, Hcl. now subst.
    + intros Hcl.
      assert (In (quote c) (map quote (uniqueQuotes pool))) as Hin.
      { apply uniqueQuotes_covers. now apply in_map. }
      apply in_map_iff in Hin. destruct Hin as (c' & Hq & Hc').
      exists (withType c' t). repeat split; [| exact Hq].
      apply in_flat_map. exists c'. split; [exact Hc' |].
      apply classified_In. exists t. rewrite Hq. now split.
  - apply classified_NoDup, uniqueQuotes_NoDup.
  - destruct (classify_rules query (quote c)) as (R1 & R2 & R3).
    split; [exact R1 |]. split; [exact R2 |]. split; [exact R3 |].
    intros Hnd. now rewrite uniqueQuotes_distinct.
Qed.

Lemma matcher_classifies_each_candidate_witness :
  In Examples.foxQuote [Examples.lightQuote; Examples.foxQuote]
  /\ exists m,
       In m (findMatches "The quick brown FOX jumps  "
               [Examples.lightQuote; Examples.foxQuote])
       /\ m_quote m = quote Examples.foxQuote /\ matchType m = exact.
Proof.
  assert (H : In Examples.foxQuote [Examples.lightQuote; Examples.foxQuote])
    by (right; left; reflexivity).
  split; [exact H |].
  apply (proj1 (matcher_classifies_each_candidate
                  "The quick brown FOX jumps  " _ _ H)).
  reflexivity.
Defined.

(** C3, as amended.  The pool of [collectQuotes] has the character-sourced
    list, verbatim and in order, at its head, followed by anime-sourced
    records.  When no two entries of the character-sourced list have the
    same text, two entries of the pool at different indices, at least one
    of them at a character-sourced position, have different texts. *)
Theorem collectQuotes_character_texts_stay_apart
  (net : Network) (s : SearchOutput) :
  let chars := so_characterQuotes s in
  let animes := animeSourced net (so_anime s) (so_apiKey s) in
  distinctTexts chars ->
  exists out,
    collectQuotes net (Some s) = Ret out
    /\ firstn (List.length chars) (co_allQuotes out) = chars
    /\ incl (skipn (List.length chars) (co_allQuotes out)) animes
    /\ forall i j qi qj,
         nth_error (co_allQuotes out) i = Some qi ->
         nth_error (co_allQuotes out) j = Some qj ->
         i <> j -> i < List.length chars \/ j < List.length chars ->
         quote qi <> quote qj.
Proof.
  intros chars animes Hc. rewrite collectQuotes_returns.
  eexists. split; [reflexivity |]. cbn [co_allQuotes].
  rewrite mergeQuotes_filter. fold chars animes.
  set (rest := filter (notIn chars) animes).
  split; [| split].
  - rewrite firstn_app, Nat.sub_diag, firstn_all. simpl. apply app_nil_r.
  - rewrite skipn_app, Nat.sub_diag, skipn_all. simpl.
    intros q Hq. apply filter_In in Hq. apply Hq.
  - assert (Hside : forall i j qi qj,
               i < List.length chars ->
               nth_error (chars ++ rest) i = Some qi ->
               nth_error (chars ++ rest) j = Some qj ->
               i <> j -> quote qi <> quote qj).
    { intros i j qi qj Hi Ei Ej Hne.
      rewrite nth_error_app1 in Ei by exact Hi.
      destruct (Nat.lt_ge_cases j (List.length chars)) as [Hj | Hj].
      - rewrite nth_error_app1 in Ej by exact Hj.
        exact (Hc i j qi qj Ei Ej Hne).
      - rewrite nth_error_app2 in Ej by exact Hj.
        apply nth_error_In, filter_In in Ej. destruct Ej as [_ Hn].
        unfold notIn in Hn. apply negb_true_iff in Hn.
        intros E. apply nth_error_In in Ei.
        assert (In (quote qj) (map quote chars)) as Hin
          by (rewrite <- E; now apply in_map).
        apply (proj2 (member_In _ _)) in Hin. congruence. }
    intros i j qi qj Ei Ej Hne [Hi | Hj].
    + exact (Hside i j qi qj Hi Ei Ej Hne).
    + intros E. apply (Hside j i qj qi Hj Ej Ei); [lia | now symmetry].
Qed.

Lemma collectQuotes_character_texts_stay_apart_witness :
  exists out,
    collectQuotes Examples.characterDownNet (Some Examples.distinctOutput)
    = Ret out
    /\ firstn 1 (co_allQuotes out) = [Examples.believe1]
    /\ forall qi qj,
         nth_error (co_allQuotes out) 0 = Some qi ->
         nth_error (co_allQuotes out) 1 = Some qj ->
         quote qi <> quote qj.
Proof.
  destruct (collectQuotes_character_texts_stay_apart
              Examples.characterDownNet Examples.distinctOutput)
    as (out & E & Hhead & _ & Hapart).
  - apply distinctTexts_NoDup. vm_compute.
    constructor; [intros [] | constructor].
  - exists out. split; [exact E |]. split; [exact Hhead |].
    intros qi qj Ei Ej. apply (Hapart 0 1 qi qj Ei Ej); [discriminate |].
    left. vm_compute. lia.
Defined.

(** C3, counterexample: a character page that carries one line twice is
    kept as it is, so the pool has two entries with the same text. *)
Lemma pool_keeps_repeated_character_line :
  exists out,
    searchThenCollect Examples.repeatingNet Examples.narutoInput = Ret out
    /\ co_allQuotes out = [Examples.believe1; Examples.believe2]
    /\ ~ distinctTexts (co_allQuotes out).
Proof.
  eexists. split; [reflexivity |]. split; [reflexivity |].
  intros H.
  apply (H 0 1 Examples.believe1 Examples.believe2);
    [reflexivity | reflexivity | discriminate | reflexivity].
Qed.

(** The set of texts already present is built once, before the loop that
    appends, and is not updated in it: a text that the anime page itself
    carries twice is appended twice. *)
Example anime_page_repeats_are_kept :
  exists out,
    collectQuotes MoreExamples.repeatingAnimeNet
      (Some MoreExamples.animeOnlyOutput) = Ret out
    /\ co_allQuotes out = [Examples.believe1; Examples.believe2].
Proof. eexists. split; reflexivity. Qed.

(** C6. A look-up that fails (rejected fetch, non-2xx status, rejected or
    unusable body) never makes steps 1 and 2 throw: the steps return, the
    failed dimension contributes no record, and the pool is what the other
    dimension contributed. *)
Theorem failed_lookup_is_swallowed (net : Network) (input : SearchInput) :
  exists out,
    searchThenCollect net input = Ret out /\
    let chars := characterSourced net (si_character input) (si_apiKey input) in
    let animes := animeSourced net (si_anime input) (si_apiKey input) in
    co_allQuotes out = mergeQuotes chars animes /\
    (forall c, asTruthy (si_character input) = Some c ->
       failed (net (withKey (QuotesByCharacter c (Some 1)) (si_apiKey input))) ->
       chars = [] /\ co_allQuotes out = animes) /\
    (forall a, asTruthy (si_anime input) = Some a ->
       failed (net (withKey (QuotesByAnime a (Some 1)) (si_apiKey input))) ->
       animes = [] /\ co_allQuotes out = chars).
Proof.
  unfold searchThenCollect. rewrite searchQuotes_returns. cbn [bind].
  rewrite collectQuotes_returns.
  eexists. split; [reflexivity |].
  cbn [co_allQuotes so_characterQuotes so_anime so_apiKey].
  split; [reflexivity |]. split.
  - intros c Hc Hf. unfold characterSourced at 1 2. rewrite Hc.
    rewrite (failed_contributes_nothing _ Hf).
    split; [reflexivity | apply mergeQuotes_nil_l].
  - intros a Ha Hf. unfold animeSourced at 1 2. rewrite Ha.
    rewrite (failed_contributes_nothing _ Hf).
    split; [reflexivity | apply mergeQuotes_nil_r].
Qed.

Lemma failed_lookup_is_swallowed_witness :
  exists out,
    searchThenCollect Examples.characterDownNet Examples.bothInput = Ret out
    /\ co_allQuotes out = [Examples.believe1; Examples.hardWork].
Proof.
  destruct (failed_lookup_is_swallowed Examples.characterDownNet
              Examples.bothInput) as (out & E & _ & Hc & _).
  exists out. split; [exact E |].
  destruct (Hc "Naruto Uzumaki" eq_refl I) as [_ ->]. reflexivity.
Defined.

(** C9, counterexample: the workflow has no boundary that turns an
    exception into a verdict; a missing agent, or an agent whose
    [generate] rejects, makes the run throw. *)
Lemma workflow_exception_escapes :
  animeQuoteVerificationWorkflow Examples.emptyNet (Some Examples.noAgent)
    Examples.noSourceInput
  = Throw (Error "Anime agent not found")
  /\ animeQuoteVerificationWorkflow Examples.emptyNet
       (Some Examples.failingAgent) Examples.noSourceInput
     = Throw (Error "model unavailable").
Proof.
  split; reflexivity.
Qed.

(** Scenarios of the specification. *)

Example scenario_A :
  let v := verifyQuote Examples.scenarioA in
  verified v = true /\ confidence v = high
  /\ map matchType (matches v) = [exact].
Proof. vm_compute. repeat split. Qed.

Example scenario_D :
  let v := verifyQuote (mkVerifyInput "Believe it!" [] None None) in
  verified v = false /\ confidence v = medium.
Proof. vm_compute. split; reflexivity. Qed.

Example normalize_keeps_inner_space :
  normalize "  Believe   IT!  " = "believe   it!".
Proof. vm_compute. reflexivity. Qed.

Example scenario_E_below_threshold :
  classify "the quick brown fox jumps" "a quick brown fox leaps" = None.
Proof. vm_compute. reflexivity. Qed.

Example scenario_E_at_threshold :
  classify "the quick brown cat" "the quick brown fox jumps" = Some similar.
Proof. vm_compute. reflexivity. Qed.

End WorkflowFacts.

(** ** The tools *)

Module ToolsFacts.

Import JsString Tools Spec.

Lemma present_getProp v k : present v -> getProp v k = Ret (optProp v k).
Proof.
  intros [H1 H2]. destruct v; try reflexivity; congruence.
Qed.

Lemma getProp_Ret v k x : getProp v k = Ret x -> x = optProp v k.
Proof.
  destruct v; simpl; intros E; inversion E; reflexivity.
Qed.

Lemma wrapperItem_Ret item q :
  wrapperItem item = Ret q -> q = wrapperRecord item.
Proof.
  unfold wrapperItem, wrapperRecord.
  destruct item; simpl; intros E; inversion E; reflexivity.
Qed.

Lemma wrapperItem_present item :
  present item -> wrapperItem item = Ret (wrapperRecord item).
Proof.
  intros [H1 H2]. unfold wrapperItem, wrapperRecord.
  destruct item; try reflexivity; congruence.
Qed.

Lemma legacyItem_Ret item q :
  legacyItem item = Ret q -> q = legacyRecord item.
Proof.
  unfold legacyItem, legacyRecord, legacyName, orElse.
  destruct item; simpl; intros E; try discriminate;
    try (inversion E; reflexivity).
  destruct (truthy _); simpl in E; inversion E; reflexivity.
Qed.

Lemma legacyItem_present item :
  present item -> legacyItem item = Ret (legacyRecord item).
Proof.
  intros [H1 H2]. unfold legacyItem, legacyRecord, legacyName, orElse.
  destruct item; try reflexivity; try congruence.
  simpl. destruct (truthy _); reflexivity.
Qed.


Lemma mapM_total {A B} (f : A -> result B) (g : A -> B) l :
  Forall (fun a => f a = Ret (g a)) l -> mapM f l = Ret (map g l).
Proof.
  induction 1 as [|a l Ha _ IH]; simpl; [reflexivity |].
  now rewrite Ha, IH.
Qed.

Lemma orElse_truthy a b : truthy b = true -> truthy (orElse a b) = true.
Proof. unfold orElse. destruct (truthy a) eqn:E; auto. Qed.

Lemma truthy_present v : truthy v = true ->
  v <> VNull /\ v <> VUndefined /\ v <> VString EmptyString.
Proof. destruct v; simpl; intros H; repeat split; try discriminate.
  intros E. inversion E; subst. discriminate. Qed.

Lemma wrapperRecord_names item :
  truthy (anime (wrapperRecord item)) = true
  /\ truthy (character (wrapperRecord item)) = true.
Proof.
  unfold wrapperRecord; simpl. split; repeat apply orElse_truthy; reflexivity.
Qed.

Lemma legacyName_cases v :
  (typeofString v = true /\ legacyName v = v)
  \/ truthy (legacyName v) = true.
Proof.
  unfold legacyName. destruct (typeofString v); [left; auto | right].
  apply orElse_truthy. reflexivity.
Qed.



Lemma copyQuote_id q : copyQuote q = q.
Proof. now destruct q. Qed.

Lemma map_copyQuote l : map copyQuote l = l.
Proof.
  induction l as [|q l IH]; simpl; [reflexivity |].
  now rewrite copyQuote_id, IH.
Qed.

Lemma matchesQuote_Ret quoteText q b :
  matchesQuote quoteText q = Ret b -> b = matchesText quoteText q.
Proof.
  unfold matchesQuote, matchesText.
  destruct (quote q); simpl; try discriminate.
  destruct (includes (toLowerCase s) quoteText); simpl;
    intros E; now inversion E.
Qed.

Lemma filterM_filter quoteText qs ms :
  filterM (matchesQuote quoteText) qs = Ret ms ->
  ms = filter (matchesText quoteText) qs.
Proof.
  revert ms. induction qs as [|q qs IH]; simpl; intros ms E.
  - now inversion E.
  - destruct (matchesQuote quoteText q) as [b|e] eqn:Eq; simpl in E;
      [| discriminate].
    destruct (filterM (matchesQuote quoteText) qs) as [rs|e] eqn:Er;
      simpl in E; [| discriminate].
    inversion E; subst. rewrite <- (matchesQuote_Ret _ _ _ Eq).
    now rewrite (IH rs eq_refl).
Qed.

Lemma length_zero_nil {A} (l : list A) :
  (0 <? List.length l)%nat = false -> l = [].
Proof. destruct l; [reflexivity | discriminate]. Qed.

Lemma asTruthy_truthyStr o : truthyStr o = match asTruthy o with Some _ => true | None => false end.
Proof. reflexivity. Qed.

Lemma try_with_quote net ctx qv qs :
  asTruthy (vc_quote ctx) = Some qv ->
  gatherQuotes net ctx = Ret qs ->
  verifyAnimeQuote_try net ctx =
    (ms <- filterM (matchesQuote (trim (toLowerCase qv))) qs ;;
     Ret (if (0 <? List.length ms)%nat
          then mkVerdict true high ms
                 ("Quote verified! Found " ++ ofNat (List.length ms)
                  ++ " matching quote(s).")%string
          else mkVerdict false high [] Tools.notFoundMessage)).
Proof.
  intros Hq Hg. unfold verifyAnimeQuote_try. rewrite Hg. simpl. rewrite Hq.
  destruct (filterM _ qs) as [ms|e]; simpl; [| reflexivity].
  rewrite map_copyQuote. unfold notFound. rewrite asTruthy_truthyStr, Hq.
  now destruct (0 <? List.length ms)%nat.
Qed.

Lemma try_without_quote net ctx qs :
  asTruthy (vc_quote ctx) = None ->
  gatherQuotes net ctx = Ret qs ->
  verifyAnimeQuote_try net ctx =
    Ret (if (0 <? List.length qs)%nat
         then mkVerdict true medium (firstn 10 qs)
                ("Found " ++ ofNat (List.length qs)
                 ++ " quote(s) for the specified criteria.")%string
         else mkVerdict false medium [] Tools.notFoundMessage).
Proof.
  intros Hq Hg. unfold verifyAnimeQuote_try. rewrite Hg. simpl. rewrite Hq.
  rewrite map_copyQuote. unfold notFound. rewrite asTruthy_truthyStr, Hq.
  now destruct (0 <? List.length qs)%nat.
Qed.

Lemma try_throws net ctx e :
  gatherQuotes net ctx = Throw e -> verifyAnimeQuote_try net ctx = Throw e.
Proof. intros H. unfold verifyAnimeQuote_try. now rewrite H. Qed.

Lemma gather_nothing net ctx :
  truthyStr (vc_character ctx) = false -> truthyStr (vc_anime ctx) = false ->
  gatherQuotes net ctx = Ret [].
Proof.
  unfold gatherQuotes. rewrite !asTruthy_truthyStr.
  destruct (asTruthy (vc_character ctx)); [discriminate |].
  destruct (asTruthy (vc_anime ctx)); [discriminate |]. reflexivity.
Qed.

Lemma tool_unfold net ctx :
  verifyAnimeQuoteTool net ctx =
    if provided ctx then
      match verifyAnimeQuote_try net ctx with
      | Ret v => v
      | Throw e => errorVerdict e
      end
    else cannotVerify.
Proof.
  unfold verifyAnimeQuoteTool, provided.
  destruct (truthyStr (vc_quote ctx)), (truthyStr (vc_character ctx)),
    (truthyStr (vc_anime ctx)); reflexivity.
Qed.

Lemma try_verified_iff net ctx v :
  verifyAnimeQuote_try net ctx = Ret v ->
  (verified v = true <-> matches v <> []).
Proof.
  destruct (gatherQuotes net ctx) as [qs|e] eqn:Hg.
  2:{ rewrite (try_throws _ _ _ Hg). discriminate. }
  destruct (asTruthy (vc_quote ctx)) as [qv|] eqn:Hq.
  - rewrite (try_with_quote _ _ _ _ Hq Hg).
    destruct (filterM _ qs) as [ms|e]; simpl; [| discriminate].
    destruct ms as [|m ms]; simpl; intros E; inversion E; simpl;
      split; congruence.
  - rewrite (try_without_quote _ _ _ Hq Hg).
    destruct qs as [|q qs]; simpl; intros E; inversion E; simpl;
      split; congruence.
Qed.

Lemma tool_verified_iff net ctx :
  verified (verifyAnimeQuoteTool net ctx) = true
  <-> matches (verifyAnimeQuoteTool net ctx) <> [].
Proof.
  rewrite tool_unfold. destruct (provided ctx).
  - destruct (verifyAnimeQuote_try net ctx) as [v|e] eqn:E.
    + exact (try_verified_iff _ _ _ E).
    + simpl. split; congruence.
  - simpl. split; congruence.
Qed.

(** *** Properties of the tools *)

(** C5, as amended.  Without a literal quote and with a character and/or
    an anime, no matching is done, and a non-empty pool gives a verified
    verdict of medium confidence whose message counts the pool and whose
    matches are the first 10 records of the pool. *)
Theorem no_quote_verdict (net : Network) (ctx : VerifyContext)
  (qs : list Quote) :
  asTruthy (vc_quote ctx) = None ->
  truthyStr (vc_character ctx) || truthyStr (vc_anime ctx) = true ->
  gatherQuotes net ctx = Ret qs ->
  qs <> [] ->
  verifyAnimeQuoteTool net ctx
  = mkVerdict true medium (firstn 10 qs)
      ("Found " ++ ofNat (List.length qs)
       ++ " quote(s) for the specified criteria.")%string.
Proof.
  intros Hq Hca Hg Hne. rewrite tool_unfold.
  assert (Hp : provided ctx = true).
  { unfold provided.
    destruct (truthyStr (vc_character ctx)), (truthyStr (vc_anime ctx)),
      (truthyStr (vc_quote ctx)); try discriminate Hca; reflexivity. }
  rewrite Hp, (try_without_quote _ _ _ Hq Hg).
  destruct qs; [contradiction | reflexivity].
Qed.

Lemma no_quote_verdict_witness :
  verifyAnimeQuoteTool Examples.sixNet Examples.luffyContext
  = mkVerdict true medium (map legacyRecord Examples.sixItems)
      "Found 6 quote(s) for the specified criteria.".
Proof.
  apply (no_quote_verdict Examples.sixNet Examples.luffyContext
           (map legacyRecord Examples.sixItems));
    [reflexivity | reflexivity | reflexivity | discriminate].
Defined.

(** C5, counterexample: a pool of six records is returned whole, not cut
    to its first five. *)
Lemma no_quote_returns_six :
  gatherQuotes Examples.sixNet Examples.luffyContext
  = Ret (map legacyRecord Examples.sixItems)
  /\ List.length (matches (verifyAnimeQuoteTool Examples.sixNet
                            Examples.luffyContext)) = 6
  /\ matches (verifyAnimeQuoteTool Examples.sixNet Examples.luffyContext)
     <> firstn 5 (map legacyRecord Examples.sixItems).
Proof.
  split; [reflexivity |]. split; [reflexivity |].
  intros H. apply (f_equal (@List.length Quote)) in H.
  vm_compute in H. discriminate H.
Qed.




(** C8, as amended.  [parseApiResponse] answers a body that is neither a
    wrapper nor an array with no records and no error; it maps a wrapper
    whose [data] is an array of objects, and a bare array of objects, item
    by item.  [getQuotesByCharacterTool] is the one that throws: for a
    successful response whose body is neither [null] nor an array and has
    no truthy [status] and [data], it throws ["Unexpected API response
    format"] behind its own prefix. *)
Theorem response_shapes :
  (forall v, isWrapper v = false -> isArray v = false ->
     parseApiResponse v = Ret []) /\
  (forall v items, isWrapper v = true -> optProp v "data" = VArray items ->
     Forall present items ->
     parseApiResponse v = Ret (map wrapperRecord items)) /\
  (forall items, Forall present items ->
     parseApiResponse (VArray items) = Ret (map legacyRecord items)) /\
  (forall net ctx status v,
     net (withKey (QuotesByCharacter (qc_character ctx)
                     (Some (pageOr1 (qc_page ctx)))) (qc_apiKey ctx))
     = Response status (Ret v) ->
     ok status = true -> present v -> isArray v = false ->
     truthy (optProp v "status") && truthy (optProp v "data") = false ->
     getQuotesByCharacterTool net ctx
     = Throw (Error (("Failed to fetch quotes for character " ++ Tools.dq
                      ++ qc_character ctx ++ Tools.dq ++ ": ")
                     ++ unexpectedFormat)%string)).
Proof.
  refine (conj _ (conj _ (conj _ _))).
  - intros v Hw Ha. unfold parseApiResponse. now rewrite Hw, Ha.
  - intros v items Hw Hd Hp. unfold parseApiResponse. rewrite Hw, Hd.
    apply mapM_total. eapply Forall_impl; [| exact Hp].
    intros a. apply wrapperItem_present.
  - intros items Hp. unfold parseApiResponse.
    cbn [isWrapper truthy typeofObject hasIn andb isArray arrayMap].
    apply mapM_total. eapply Forall_impl; [| exact Hp].
    intros a. apply legacyItem_present.
  - intros net ctx status v Hnet Hok Hv Ha Hsd.
    unfold getQuotesByCharacterTool, getQuotesByCharacter_try.
    rewrite Hnet, Hok. cbn [negb bind].
    rewrite !(present_getProp _ _ Hv). cbn [bind].
    destruct (truthy (optProp v "status")) eqn:Hs.
    + rewrite ?(present_getProp _ _ Hv). cbn [bind].
      simpl in Hsd. rewrite Hsd, Ha. reflexivity.
    + cbn [bind]. rewrite ?Hs, Ha. reflexivity.
Qed.

Lemma response_shapes_witness :
  parseApiResponse Examples.wrapperBody
  = Ret [mkQuote (VString "Believe it!") (VString "Naruto")
           (VString "Naruto Uzumaki")]
  /\ getQuotesByCharacterTool Examples.strangeNet Examples.luffyQuotes
     = Throw (Error ("Failed to fetch quotes for character " ++ Tools.dq
                     ++ "Monkey D. Luffy" ++ Tools.dq
                     ++ ": Unexpected API response format")%string).
Proof.
  destruct response_shapes as (_ & Hw & _ & Hu). split.
  - refine (Hw Examples.wrapperBody _ eq_refl eq_refl _).
    constructor; [split; discriminate | constructor].
  - refine (Hu Examples.strangeNet Examples.luffyQuotes 200
              Examples.strangeBody eq_refl eq_refl _ eq_refl eq_refl).
    split; discriminate.
Defined.

(** C8, counterexample: on a body of no known shape the verification
    tool goes on without an error and reports that the quote was not
    found. *)
Lemma unknown_shape_is_silent :
  parseApiResponse Examples.strangeBody = Ret []
  /\ verifyAnimeQuoteTool Examples.strangeNet Examples.dreamContext
     = mkVerdict false high [] Tools.notFoundMessage.
Proof.
  split; reflexivity.
Qed.

(** C9, as amended.  No exception escapes [verifyAnimeQuoteTool]:
    whatever its [try] block throws (for one, a rejected fetch or a
    rejected [json()] of the character look-up) becomes the verdict not
    verified, confidence low, no matches, message ["Error during
    verification: "] followed by the message of the error. *)
Theorem tool_turns_exceptions_into_verdict (net : Network)
  (ctx : VerifyContext) (e : exn) :
  provided ctx = true ->
  (verifyAnimeQuote_try net ctx = Throw e
   \/ exists c,
        asTruthy (vc_character ctx) = Some c
        /\ (net (withKey (QuotesByCharacter c None) (vc_apiKey ctx))
            = FetchRejects e
            \/ exists status,
                 ok status = true
                 /\ net (withKey (QuotesByCharacter c None) (vc_apiKey ctx))
                    = Response status (Throw e))) ->
  let v := verifyAnimeQuoteTool net ctx in
  v = errorVerdict e /\
  verified v = false /\ confidence v = low /\ matches v = [] /\
  exists msg, message v = ("Error during verification: " ++ msg)%string.
Proof.
  intros Hp Ht v. subst v.
  assert (Hthrow : verifyAnimeQuote_try net ctx = Throw e).
  { destruct Ht as [Ht | (c & Hc & Hnet)]; [exact Ht |].
    apply try_throws. unfold gatherQuotes, lookupQuotes. rewrite Hc.
    destruct Hnet as [-> | (status & Hok & ->)]; [reflexivity |].
    now rewrite Hok. }
  rewrite tool_unfold, Hp, Hthrow.
  repeat split. eexists. reflexivity.
Qed.

Lemma tool_turns_exceptions_into_verdict_witness :
  verifyAnimeQuoteTool Examples.downNet Examples.dreamContext
  = mkVerdict false low [] "Error during verification: fetch failed".
Proof.
  refine (proj1 (tool_turns_exceptions_into_verdict Examples.downNet
                   Examples.dreamContext (Error "fetch failed")
                   eq_refl _)).
  right. exists "Monkey D. Luffy". split; [reflexivity |].
  left. reflexivity.
Defined.

(** Scenario C of the specification, on the tool. *)
Example scenario_C :
  let v := verifyAnimeQuoteTool
             (fun _ => Response 200 (Ret (VArray (firstn 4 Examples.sixItems))))
             Examples.luffyContext in
  verified v = true /\ confidence v = medium /\ List.length (matches v) = 4.
Proof. vm_compute. repeat split. Qed.

End ToolsFacts.

(** ** Properties that span the workflow and the tool *)

(** C4, as amended.  The verify step of the workflow returns the first 5
    entries of the full match list.  The tool has no such cap: with a
    literal quote it returns every record of its pool whose lower-cased
    text contains the normalized quote or is contained in it, in pool
    order; without one it returns the first 10 records of the pool. *)
Theorem matches_caps :
  (forall i,
     Workflow.matches (Workflow.verifyQuote i)
     = firstn 5 (Workflow.findMatches (Workflow.vi_quote i)
                   (Workflow.vi_allQuotes i))
     /\ List.length (Workflow.matches (Workflow.verifyQuote i)) <= 5) /\
  (forall net ctx qs,
     Tools.gatherQuotes net ctx = Ret qs ->
     match asTruthy (Tools.vc_quote ctx) with
     | Some qv =>
         forall ms,
           Tools.filterM
             (Tools.matchesQuote (JsString.trim (JsString.toLowerCase qv))) qs
           = Ret ms ->
           ms = filter (Spec.matchesText
                          (JsString.trim (JsString.toLowerCase qv))) qs
           /\ Tools.matches (Tools.verifyAnimeQuoteTool net ctx) = ms
     | None =>
         Tools.matches (Tools.verifyAnimeQuoteTool net ctx) = firstn 10 qs
     end).
Proof.
  split.
  - intros i. rewrite WorkflowFacts.verifyQuote_matches.
    split; [reflexivity | apply firstn_le_length].
  - intros net ctx qs Hg. rewrite ToolsFacts.tool_unfold.
    destruct (asTruthy (Tools.vc_quote ctx)) as [qv|] eqn:Hq.
    + intros ms Hm. split; [now apply ToolsFacts.filterM_filter |].
      unfold Spec.provided. rewrite (ToolsFacts.asTruthy_truthyStr
                                       (Tools.vc_quote ctx)), Hq.
      cbn [orb]. rewrite (ToolsFacts.try_with_quote _ _ _ _ Hq Hg), Hm.
      cbn [bind]. destruct ms; reflexivity.
    + destruct (Spec.provided ctx) eqn:Hp.
      * rewrite (ToolsFacts.try_without_quote _ _ _ Hq Hg).
        destruct qs; reflexivity.
      * unfold Spec.provided in Hp. apply orb_false_elim in Hp.
        destruct Hp as [Hp Ha]. apply orb_false_elim in Hp.
        destruct Hp as [_ Hc].
        rewrite (ToolsFacts.gather_nothing _ _ Hc Ha) in Hg.
        inversion Hg. reflexivity.
Qed.

Lemma matches_caps_witness :
  List.length
    (Tools.matches
       (Tools.verifyAnimeQuoteTool Examples.sixNet Examples.luffyContext))
  = 6.
Proof.
  rewrite (proj2 matches_caps Examples.sixNet Examples.luffyContext
             (map Spec.legacyRecord Examples.sixItems) eq_refl).
  reflexivity.
Defined.

(** C4, counterexample: six records of the pool contain the quote, and
    the tool returns the six of them. *)
Lemma tool_returns_six_matches :
  ~ List.length
      (Tools.matches
         (Tools.verifyAnimeQuoteTool Examples.sixNet Examples.dreamContext))
    <= 5.
Proof.
  vm_compute. intros H. repeat apply le_S_n in H. inversion H.
Qed.

(** C10. In every verdict of the verify step and of the tool, [verified]
    holds exactly when the list of matches is not empty. *)
Theorem verified_iff_matches :
  (forall i,
     Workflow.verified (Workflow.verifyQuote i) = true
     <-> Workflow.matches (Workflow.verifyQuote i) <> []) /\
  (forall net ctx,
     Tools.verified (Tools.verifyAnimeQuoteTool net ctx) = true
     <-> Tools.matches (Tools.verifyAnimeQuoteTool net ctx) <> []).
Proof.
  split.
  - exact WorkflowFacts.verifyQuote_verified_iff.
  - exact ToolsFacts.tool_verified_iff.
Qed.

(** * Further properties *)

(** ** The workflow *)

Module WorkflowExtras.

Import JsString JsColl Workflow Spec StringFacts WorkflowFacts Vocabulary.

Lemma mapSet_keys_set_add {V} k (v : V) m :
  map fst (mapSet k v m) = set_add string_dec k (map fst m).
Proof.
  induction m as [|[k' v'] m IH]; simpl; [reflexivity |].
  destruct (string_dec k k') as [E|E];
    destruct (String.eqb_spec k k') as [E'|E']; try congruence; simpl.
  - now subst.
  - now rewrite IH.
Qed.

Lemma newMap_keys_from {V} (es acc : list (string * V)) :
  map fst (fold_left mapStep es acc)
  = fold_left (fun s x => set_add string_dec x s) (map fst es) (map fst acc).
Proof.
  revert acc. induction es as [|[k v] es IH]; intros acc; simpl;
    [reflexivity |].
  rewrite IH. unfold mapStep. simpl. now rewrite mapSet_keys_set_add.
Qed.

Lemma uniqueQuotes_texts_order pool :
  map quote (uniqueQuotes pool) = newSet (map quote pool).
Proof.
  rewrite uniqueQuotes_texts. unfold newMap, newSet.
  rewrite newMap_keys_from, entries_keys. reflexivity.
Qed.

Lemma mapSet_In_inv {V} k (v : V) m e :
  NoDup (map fst m) -> In e (mapSet k v m) ->
  e = (k, v) \/ (In e m /\ fst e <> k).
Proof.
  induction m as [|[k' v'] m IH]; simpl; intros Hnd Hin.
  - destruct Hin as [<-|[]]. now left.
  - inversion Hnd as [|? ? Hnin Hnd']; subst.
    destruct (String.eqb_spec k k') as [->|Hne]; simpl in Hin.
    + destruct Hin as [<-|Hin]; [now left | right].
      split; [now right |]. intros E. apply Hnin. rewrite <- E.
      now apply in_map.
    + destruct Hin as [<-|Hin]; [right; split; [now left | simpl; congruence] |].
      destruct (IH Hnd' Hin) as [->|[H1 H2]]; [now left | right].
      split; [now right | exact H2].
Qed.

Lemma newMap_snoc {V} (es : list (string * V)) k v :
  newMap (es ++ [(k, v)]) = mapSet k v (newMap es).
Proof. unfold newMap. rewrite fold_left_app. reflexivity. Qed.

Lemma newMap_NoDup {V} (es : list (string * V)) : NoDup (map fst (newMap es)).
Proof. apply (fold_mapSet_spec es [] (NoDup_nil _)). Qed.

Lemma uniqueQuotes_last pool c :
  In c (uniqueQuotes pool) ->
  exists l1 l2, pool = l1 ++ c :: l2 /\ forall d, In d l2 -> quote d <> quote c.
Proof.
  induction pool as [|q pool IH] using rev_ind; intros Hin.
  - destruct Hin.
  - unfold uniqueQuotes, values, entries in Hin.
    rewrite map_app in Hin. simpl in Hin. rewrite newMap_snoc in Hin.
    apply in_map_iff in Hin. destruct Hin as ([k v] & E & Hin). simpl in E.
    subst v. apply mapSet_In_inv in Hin; [| apply newMap_NoDup].
    destruct Hin as [E | [Hin Hk]].
    + inversion E; subst. exists pool, []. split; [reflexivity | intros d []].
    + simpl in Hk.
      assert (Hc : In c (uniqueQuotes pool)).
      { unfold uniqueQuotes, values. apply in_map_iff. now exists (k, c). }
      assert (Ek : k = quote c) by exact (uniqueQuotes_keyed pool (k, c) Hin).
      destruct (IH Hc) as (l1 & l2 & -> & Hl2).
      exists l1, (l2 ++ [q]). split; [now rewrite <- app_assoc |].
      intros d Hd. apply in_app_iff in Hd. destruct Hd as [Hd | [<- | []]].
      * now apply Hl2.
      * congruence.
Qed.

(** X2. The list the matching loop runs over holds the texts of the pool
    in the order of their first occurrence, and for each text the record
    that comes last in the pool with that text. *)
Theorem uniqueQuotes_first_place_last_record (pool : list AnimechanQuote) :
  map quote (uniqueQuotes pool) = newSet (map quote pool) /\
  forall c, In c (uniqueQuotes pool) ->
    exists l1 l2,
      pool = l1 ++ c :: l2 /\ forall d, In d l2 -> quote d <> quote c.
Proof.
  split; [apply uniqueQuotes_texts_order | apply uniqueQuotes_last].
Qed.

Lemma classified_length query l :
  List.length (flat_map (classified query) l) <= List.length l.
Proof.
  induction l as [|c l IH]; simpl; [lia |].
  rewrite length_app. unfold classified at 1.
  destruct (classify query (quote c)); simpl; lia.
Qed.

Lemma uniqueQuotes_length pool :
  List.length (uniqueQuotes pool) <= List.length pool.
Proof.
  rewrite <- (length_map quote (uniqueQuotes pool)), <- (length_map quote pool).
  apply NoDup_incl_length; [apply uniqueQuotes_NoDup |].
  intros s Hs. now apply uniqueQuotes_covers.
Qed.

Lemma findMatches_length query pool :
  List.length (findMatches query pool) <= List.length pool.
Proof.
  rewrite findMatches_classified.
  etransitivity; [apply classified_length | apply uniqueQuotes_length].
Qed.

Lemma findMatches_sound query pool m :
  In m (findMatches query pool) ->
  exists c, In c pool /\ m = withType c (matchType m)
            /\ classify query (quote c) = Some (matchType m).
Proof.
  rewrite findMatches_classified. intros Hm. apply in_flat_map in Hm.
  destruct Hm as (c & Hc & Hm). apply classified_In in Hm.
  destruct Hm as (t & Hcl & ->). exists c.
  split; [now apply uniqueQuotes_incl | split; [reflexivity | exact Hcl]].
Qed.

Lemma firstn_incl {A} n (l : list A) x : In x (firstn n l) -> In x l.
Proof.
  intros H. rewrite <- (firstn_skipn n l). apply in_or_app. now left.
Qed.

(** X3. Every match of a verdict of [verifyQuote] is a record of the pool,
    with its text, anime and character, and carries the classification of
    that text. *)
Theorem reported_matches_are_pool_records (i : VerifyInput) (m : Match) :
  In m (matches (verifyQuote i)) ->
  exists c,
    In c (vi_allQuotes i)
    /\ m_quote m = quote c /\ m_anime m = anime c
    /\ m_character m = character c
    /\ classify (vi_quote i) (quote c) = Some (matchType m).
Proof.
  rewrite verifyQuote_matches. intros Hm. apply firstn_incl in Hm.
  destruct (findMatches_sound _ _ _ Hm) as (c & Hc & E & Hcl).
  exists c. rewrite E. simpl. auto.
Qed.

Lemma reported_matches_are_pool_records_witness :
  exists c,
    In c (vi_allQuotes Examples.scenarioA)
    /\ m_quote (withType Examples.lightQuote exact) = quote c
    /\ m_anime (withType Examples.lightQuote exact) = anime c
    /\ m_character (withType Examples.lightQuote exact) = character c
    /\ classify (vi_quote Examples.scenarioA) (quote c)
       = Some (matchType (withType Examples.lightQuote exact)).
Proof.
  apply (reported_matches_are_pool_records Examples.scenarioA
           (withType Examples.lightQuote exact)).
  vm_compute. left. reflexivity.
Defined.

Lemma intersection_comm_length a b :
  NoDup a -> NoDup b ->
  List.length (intersection a b) = List.length (intersection b a).
Proof.
  intros Ha Hb. apply same_card; try (apply NoDup_filter; assumption).
  intros x. unfold intersection. rewrite !filter_In, !member_In. tauto.
Qed.

Lemma union_comm_length a b :
  List.length (union a b) = List.length (union b a).
Proof.
  apply same_card; try apply NoDup_nodup.
  intros x. unfold union. rewrite !nodup_In, !in_app_iff. tauto.
Qed.

Lemma overlap_comm a b : NoDup a -> NoDup b -> overlap a b = overlap b a.
Proof.
  intros Ha Hb. unfold overlap.
  now rewrite (intersection_comm_length a b Ha Hb), (union_comm_length a b).
Qed.

(** X4. The classification is symmetric: a query against a candidate text
    is classified as that text against the query. *)
Theorem classify_symmetric (a b : string) : classify a b = classify b a.
Proof.
  unfold classify. rewrite (String.eqb_sym (normalize b) (normalize a)).
  rewrite (orb_comm (includes (normalize b) (normalize a))).
  rewrite (overlap_comm (wordSet (normalize b)) (wordSet (normalize a)));
    try apply NoDup_nodup.
  destruct (normalize a =? normalize b)%string; [reflexivity |].
  destruct (includes (normalize a) (normalize b)
            || includes (normalize b) (normalize a)); [reflexivity |].
  destruct (Qle_bool _ _); [| reflexivity].
  cbn [andb]. now rewrite andb_comm.
Qed.

Lemma includes_empty s : includes s EmptyString = true.
Proof. apply includes_spec. exists EmptyString, s. reflexivity. Qed.

Lemma classify_blank query s :
  normalize query = EmptyString ->
  classify query s = Some exact \/ classify query s = Some partial.
Proof.
  intros Hq. unfold classify. rewrite Hq.
  destruct (normalize s =? EmptyString)%string; [now left | right].
  now rewrite includes_empty.
Qed.

Lemma classified_blank_length query l :
  normalize query = EmptyString ->
  List.length (flat_map (classified query) l) = List.length l.
Proof.
  intros Hq. induction l as [|c l IH]; simpl; [reflexivity |].
  rewrite length_app, IH. unfold classified.
  destruct (classify_blank query (quote c) Hq) as [-> | ->]; reflexivity.
Qed.

Lemma uniqueQuotes_nonempty pool : pool <> [] -> uniqueQuotes pool <> [].
Proof.
  destruct pool as [|c pool]; [congruence |]. intros _ E.
  assert (H : In (quote c) (map quote (uniqueQuotes (c :: pool)))).
  { apply uniqueQuotes_covers. now left. }
  rewrite E in H. destruct H.
Qed.

(** X5. A quote that is empty or only white space is verified against any
    non-empty pool: every text of the pool is reported (as exact or
    partial), so the verdict is verified with high or medium confidence. *)
Theorem blank_quote_matches_everything (i : VerifyInput) :
  normalize (vi_quote i) = EmptyString ->
  vi_allQuotes i <> [] ->
  let v := verifyQuote i in
  verified v = true
  /\ (confidence v = high \/ confidence v = medium)
  /\ List.length (findMatches (vi_quote i) (vi_allQuotes i))
     = List.length (uniqueQuotes (vi_allQuotes i)).
Proof.
  intros Hq Hpool v. subst v.
  assert (Hlen : List.length (findMatches (vi_quote i) (vi_allQuotes i))
                 = List.length (uniqueQuotes (vi_allQuotes i))).
  { rewrite findMatches_classified. now apply classified_blank_length. }
  assert (Hne : findMatches (vi_quote i) (vi_allQuotes i) <> []).
  { intros E. rewrite E in Hlen. apply (uniqueQuotes_nonempty _ Hpool).
    destruct (uniqueQuotes (vi_allQuotes i)); [reflexivity | discriminate]. }
  unfold verifyQuote.
  destruct (0 <? List.length (ofType exact _))%nat eqn:He;
    [cbn; auto |].
  destruct (0 <? List.length (ofType partial _))%nat eqn:Hp;
    [cbn; auto |].
  exfalso. apply ofType_zero in He, Hp.
  destruct (findMatches (vi_quote i) (vi_allQuotes i)) as [|m ms] eqn:E;
    [congruence |].
  assert (Hm : In m (findMatches (vi_quote i) (vi_allQuotes i)))
    by (rewrite E; now left).
  destruct (findMatches_sound _ _ _ Hm) as (c & _ & _ & Hcl).
  destruct (classify_blank (vi_quote i) (quote c) Hq) as [H | H];
    rewrite H in Hcl; inversion Hcl as [Ht].
  - apply He. exists m. split; [now left | auto].
  - apply Hp. exists m. split; [now left | auto].
Qed.

Lemma blank_quote_matches_everything_witness :
  verified (verifyQuote MoreExamples.blankInput) = true.
Proof.
  refine (proj1 (blank_quote_matches_everything MoreExamples.blankInput
                   eq_refl _)).
  discriminate.
Defined.

(** X6. On a pool of at most 5 records the cap cuts nothing: the matches
    of the verdict are the full match list, and a verified verdict of high
    confidence shows an exact match among them. *)
Theorem small_pool_shows_the_exact_match (i : VerifyInput) :
  List.length (vi_allQuotes i) <= 5 ->
  let v := verifyQuote i in
  matches v = findMatches (vi_quote i) (vi_allQuotes i)
  /\ (verified v = true -> confidence v = high ->
      exists m, In m (matches v) /\ matchType m = exact).
Proof.
  intros Hlen v. subst v. rewrite verifyQuote_matches.
  assert (E : firstn 5 (findMatches (vi_quote i) (vi_allQuotes i))
              = findMatches (vi_quote i) (vi_allQuotes i)).
  { apply firstn_all2. etransitivity; [apply findMatches_length | exact Hlen]. }
  rewrite E. split; [reflexivity |].
  unfold verifyQuote.
  destruct (0 <? List.length (ofType exact _))%nat eqn:He.
  { intros _ _. now apply ofType_pos. }
  destruct (0 <? List.length (ofType partial _))%nat eqn:Hp;
    [cbn; intros _ H; discriminate H |].
  destruct (0 <? List.length (findMatches (vi_quote i) (vi_allQuotes i)))%nat
    eqn:Hm; cbn;
    [intros _ H; discriminate H | intros H; discriminate H].
Qed.

Lemma small_pool_shows_the_exact_match_witness :
  matches (verifyQuote Examples.scenarioA)
  = findMatches (vi_quote Examples.scenarioA)
      (vi_allQuotes Examples.scenarioA).
Proof.
  refine (proj1 (small_pool_shows_the_exact_match Examples.scenarioA _)).
  simpl. lia.
Defined.

(** X7. A match whose query or whose text has at most two distinct words
    is never of type similar. *)
Theorem short_texts_are_never_similar (query : string)
  (pool : list AnimechanQuote) (m : Match) :
  In m (findMatches query pool) ->
  List.length (wordSet (normalize query)) <= 2
  \/ List.length (wordSet (normalize (m_quote m))) <= 2 ->
  matchType m <> similar.
Proof.
  intros Hm Hshort Ht.
  destruct (findMatches_sound _ _ _ Hm) as (c & _ & E & Hcl).
  rewrite Ht in Hcl. apply (proj2 (proj2 (classify_rules query (quote c)))) in Hcl.
  rewrite E in Hshort. simpl in Hshort. lia.
Qed.

Lemma short_texts_are_never_similar_witness :
  matchType (withType Examples.foxQuote partial) <> similar.
Proof.
  apply (short_texts_are_never_similar "fox" [Examples.foxQuote]).
  - vm_compute. left. reflexivity.
  - left. vm_compute. lia.
Defined.

(** X1. [collectQuotes] always returns, and its pool begins with the
    character-sourced list as it was given; what follows are exactly the
    anime-sourced records whose text no character-sourced record has.  So
    the pool is never shorter than the character list and never longer
    than both lists together. *)
Theorem collectQuotes_keeps_character_quotes (net : Network)
  (s : SearchOutput) :
  exists out,
    collectQuotes net (Some s) = Ret out /\
    let chars := so_characterQuotes s in
    let animes := animeSourced net (so_anime s) (so_apiKey s) in
    firstn (List.length chars) (co_allQuotes out) = chars /\
    (forall q, In q (skipn (List.length chars) (co_allQuotes out)) <->
               In q animes /\ ~ In (quote q) (map quote chars)) /\
    List.length chars <= List.length (co_allQuotes out)
      <= List.length chars + List.length animes.
Proof.
  rewrite collectQuotes_returns. eexists. split; [reflexivity |].
  cbn [co_allQuotes]. rewrite mergeQuotes_filter.
  set (chars := so_characterQuotes s).
  set (animes := animeSourced net (so_anime s) (so_apiKey s)).
  split; [| split].
  - rewrite firstn_app, Nat.sub_diag, firstn_all. simpl. apply app_nil_r.
  - intros q. rewrite skipn_app, Nat.sub_diag, skipn_all. simpl.
    rewrite filter_In. unfold notIn. rewrite negb_true_iff.
    split; intros [H1 H2]; split; auto.
    + intros H. apply member_In in H. congruence.
    + destruct (member (quote q) (map quote chars)) eqn:E; [| reflexivity].
      apply member_In in E. contradiction.
  - rewrite length_app. pose proof (filter_length_le (notIn chars) animes). lia.
Qed.

Lemma workflow_unfold net mastra input :
  animeQuoteVerificationWorkflow net mastra input
  = generateVerificationReport mastra
      (Some (verifyQuote
               (mkVerifyInput (si_quote input)
                  (mergeQuotes
                     (characterSourced net (si_character input)
                        (si_apiKey input))
                     (animeSourced net (si_anime input) (si_apiKey input)))
                  (si_character input) (si_anime input)))).
Proof.
  unfold animeQuoteVerificationWorkflow.
  rewrite searchQuotes_returns. cbn [bind]. rewrite collectQuotes_returns.
  reflexivity.
Qed.

(** X9. With neither a character nor an anime the workflow looks nothing
    up: whatever the quote, a run that returns reports not verified, with
    medium confidence and no match. *)
Theorem quote_alone_is_never_verified_by_the_workflow (net : Network)
  (mastra : option Mastra) (input : SearchInput) (out : ReportOutput) :
  asTruthy (si_character input) = None ->
  asTruthy (si_anime input) = None ->
  animeQuoteVerificationWorkflow net mastra input = Ret out ->
  ro_verified out = false /\ ro_confidence out = medium
  /\ ro_matches out = [].
Proof.
  intros Hc Ha. rewrite workflow_unfold.
  unfold characterSourced, animeSourced. rewrite Hc, Ha.
  unfold generateVerificationReport.
  destruct (match mastra with Some m => getAgent m "animeAgent" | None => None end)
    as [agent|]; [| discriminate].
  destruct (generate agent _) as [text|e]; cbn [bind]; [| discriminate].
  intros H. inversion H; subst out. cbn. auto.
Qed.

Lemma quote_alone_is_never_verified_by_the_workflow_witness :
  ro_verified
    (mkReportOutput false medium [] "The quote could not be checked.") = false
  /\ ro_confidence
       (mkReportOutput false medium [] "The quote could not be checked.")
     = medium
  /\ ro_matches
       (mkReportOutput false medium [] "The quote could not be checked.") = [].
Proof.
  exact (quote_alone_is_never_verified_by_the_workflow Examples.emptyNet
           (Some MoreExamples.reportingMastra) Examples.noSourceInput
           (mkReportOutput false medium [] "The quote could not be checked.")
           eq_refl eq_refl eq_refl).
Defined.

End WorkflowExtras.

(** ** The tools *)

Module ToolsExtras.

Import JsString Tools Spec ToolsFacts LookupTools.

Lemma lookupQuotes_same net net' u apiKey quotes :
  net' (withKey u apiKey) = net (withKey u apiKey) ->
  lookupQuotes net' u apiKey quotes = lookupQuotes net u apiKey quotes.
Proof. intros H. unfold lookupQuotes. now rewrite H. Qed.

Lemma try_by_gather net net' ctx :
  gatherQuotes net' ctx = gatherQuotes net ctx ->
  verifyAnimeQuote_try net' ctx = verifyAnimeQuote_try net ctx.
Proof. intros H. unfold verifyAnimeQuote_try. now rewrite H. Qed.

(** X10. In [verifyAnimeQuoteTool] the anime look-up is a fallback: unless
    the character look-up returns zero records, the verdict does not depend
    on what the anime endpoint would answer. *)
Theorem anime_lookup_is_a_fallback (net net' : Network) (ctx : VerifyContext)
  (c : string) :
  asTruthy (vc_character ctx) = Some c ->
  net' (withKey (QuotesByCharacter c None) (vc_apiKey ctx))
  = net (withKey (QuotesByCharacter c None) (vc_apiKey ctx)) ->
  lookupQuotes net (QuotesByCharacter c None) (vc_apiKey ctx) [] <> Ret [] ->
  verifyAnimeQuoteTool net' ctx = verifyAnimeQuoteTool net ctx.
Proof.
  intros Hc Hsame Hne. rewrite !tool_unfold.
  rewrite (try_by_gather net net'); [reflexivity |].
  unfold gatherQuotes. rewrite Hc, (lookupQuotes_same _ _ _ _ _ Hsame).
  destruct (lookupQuotes net _ _ _) as [[|q qs] | e];
    [congruence | | reflexivity].
  cbn [bind List.length Nat.eqb]. now destruct (asTruthy (vc_anime ctx)).
Qed.

Lemma anime_lookup_is_a_fallback_witness :
  verifyAnimeQuoteTool MoreExamples.sixNetAnimeDown MoreExamples.bothContext
  = verifyAnimeQuoteTool Examples.sixNet MoreExamples.bothContext.
Proof.
  apply (anime_lookup_is_a_fallback Examples.sixNet
           MoreExamples.sixNetAnimeDown MoreExamples.bothContext
           "Monkey D. Luffy");
    [reflexivity | reflexivity | vm_compute; discriminate].
Defined.

Lemma try_confidence net ctx v :
  verifyAnimeQuote_try net ctx = Ret v ->
  confidence v = if truthyStr (vc_quote ctx) then high else medium.
Proof.
  destruct (gatherQuotes net ctx) as [qs|e] eqn:Hg.
  2:{ rewrite (try_throws _ _ _ Hg). discriminate. }
  rewrite asTruthy_truthyStr.
  destruct (asTruthy (vc_quote ctx)) as [qv|] eqn:Hq.
  - rewrite (try_with_quote _ _ _ _ Hq Hg).
    destruct (filterM _ qs) as [ms|e]; simpl; [| discriminate].
    destruct (0 <? List.length ms)%nat; intros E; inversion E; reflexivity.
  - rewrite (try_without_quote _ _ _ Hq Hg).
    destruct (0 <? List.length qs)%nat; intros E; inversion E; reflexivity.
Qed.

(** X11. The confidence of the tool's verdict tells how it was called, not
    how good the match is: low exactly when nothing was supplied or an
    exception was caught, otherwise high with a quote and medium without
    one. *)
Theorem confidence_tells_the_mode (net : Network) (ctx : VerifyContext) :
  let v := verifyAnimeQuoteTool net ctx in
  (confidence v = low <->
     provided ctx = false \/ exists e, verifyAnimeQuote_try net ctx = Throw e)
  /\ (confidence v = high -> truthyStr (vc_quote ctx) = true)
  /\ (confidence v = medium -> truthyStr (vc_quote ctx) = false).
Proof.
  intros v. subst v. rewrite tool_unfold.
  destruct (provided ctx) eqn:Hp.
  - destruct (verifyAnimeQuote_try net ctx) as [v|e] eqn:Ht.
    + rewrite (try_confidence _ _ _ Ht).
      destruct (truthyStr (vc_quote ctx)); repeat split; try discriminate;
        auto; intros [H | [e H]]; discriminate.
    + cbn. repeat split; try discriminate; eauto.
  - cbn. repeat split; try discriminate; auto.
Qed.

Lemma rethrow_prefixed {A} prefix (r : result A) e :
  rethrow prefix r = Throw e -> exists msg, e = Error (prefix ++ msg)%string.
Proof.
  destruct r as [a | [msg |]]; simpl; intros E; inversion E; eauto.
Qed.

(** X12. Whatever goes wrong inside a look-up tool, it throws an [Error]
    whose message begins with the prefix of that tool. *)
Theorem lookup_tools_throw_prefixed_errors :
  (forall net ctx e,
     getQuotesByCharacterTool net ctx = Throw e ->
     exists msg,
       e = Error (("Failed to fetch quotes for character " ++ Tools.dq
                   ++ qc_character ctx ++ Tools.dq ++ ": ") ++ msg)%string) /\
  (forall net ctx e,
     getQuotesByAnimeTool net ctx = Throw e ->
     exists msg,
       e = Error (("Failed to fetch quotes for anime " ++ Tools.dq
                   ++ ac_anime ctx ++ Tools.dq ++ ": ") ++ msg)%string) /\
  (forall net apiKey e,
     getRandomQuoteTool net apiKey = Throw e ->
     exists msg, e = Error ("Failed to fetch random quote: " ++ msg)%string).
Proof.
  split; [| split].
  - intros net ctx e. unfold getQuotesByCharacterTool.
    destruct (getQuotesByCharacter_try net ctx) as [a | [msg |]];
      cbv zeta; intros E; inversion E; eexists; reflexivity.
  - intros net ctx e. apply rethrow_prefixed.
  - intros net apiKey e. apply rethrow_prefixed.
Qed.

Lemma filterM_throws {A} (f : A -> result bool) l a e0 :
  In a l -> f a = Throw e0 -> exists e, filterM f l = Throw e.
Proof.
  induction l as [|x l IH]; simpl; intros Hin Hf; [destruct Hin |].
  destruct (f x) as [b|e] eqn:Ex; simpl; [| eauto].
  destruct Hin as [-> | Hin]; [congruence |].
  destruct (IH Hin Hf) as [e ->]. simpl. eauto.
Qed.

Lemma matchesQuote_needs_string quoteText q :
  typeofString (quote q) = false -> exists e, matchesQuote quoteText q = Throw e.
Proof.
  unfold matchesQuote. destruct (quote q); simpl; try discriminate; eauto.
Qed.

(** X13. With a quote to check, one gathered record whose text is not a
    string is enough to turn the whole verdict into the error verdict,
    whatever the other records are. *)
Theorem one_record_without_text_fails_the_check (net : Network)
  (ctx : VerifyContext) (qv : string) (qs : list Quote) (q : Quote) :
  asTruthy (vc_quote ctx) = Some qv ->
  gatherQuotes net ctx = Ret qs ->
  In q qs -> typeofString (quote q) = false ->
  exists e, verifyAnimeQuoteTool net ctx = errorVerdict e.
Proof.
  intros Hq Hg Hin Hs. rewrite tool_unfold. unfold provided.
  rewrite (asTruthy_truthyStr (vc_quote ctx)), Hq. cbn [orb].
  rewrite (try_with_quote _ _ _ _ Hq Hg).
  destruct (matchesQuote_needs_string (trim (toLowerCase qv)) q Hs) as [e0 He0].
  destruct (filterM_throws _ _ _ _ Hin He0) as [e ->]. now exists e.
Qed.

Lemma one_record_without_text_fails_the_check_witness :
  exists e,
    verifyAnimeQuoteTool MoreExamples.noContentNet Examples.dreamContext
    = errorVerdict e.
Proof.
  apply (one_record_without_text_fails_the_check MoreExamples.noContentNet
           Examples.dreamContext "dream"
           [mkQuote VUndefined (VString "Naruto") Unknown]
           (mkQuote VUndefined (VString "Naruto") Unknown));
    [reflexivity | reflexivity | left; reflexivity | reflexivity].
Defined.

Lemma isWrapper_eq v :
  isWrapper v = truthy (optProp v "status") && truthy (optProp v "data").
Proof.
  unfold isWrapper.
  destruct v as [| | b | n | s | items | props];
    cbn [truthy typeofObject hasIn optProp andb]; try reflexivity.
  - now destruct b.
  - now destruct (negb (n =? 0)%Z).
  - now destruct (negb (s =? EmptyString)%string).
  - destruct (lookup "status" props); reflexivity.
Qed.

Lemma getProp_inv v k x :
  getProp v k = Ret x -> present v /\ x = optProp v k.
Proof.
  destruct v; simpl; intros E; inversion E;
    (split; [split; discriminate | reflexivity]).
Qed.

Ltac inv_bind H E :=
  match type of H with
  | bind ?r _ = Ret _ =>
      destruct r eqn:E; [cbn [bind] in H | discriminate H]
  end.

Lemma strict_lenient item a :
  strictWrapperItem item = Ret a ->
  wrapperItem item = Ret (wrapperRecord item)
  /\ quote (wrapperRecord item) = quote a
  /\ anime (wrapperRecord item) = anime a
  /\ (truthy (character a) = true ->
      character (wrapperRecord item) = character a).
Proof.
  unfold strictWrapperItem. intros H.
  inv_bind H E1. apply getProp_inv in E1. destruct E1 as [Hitem ->].
  inv_bind H E2. apply getProp_inv in E2. destruct E2 as [_ ->].
  inv_bind H E3. apply getProp_inv in E3. destruct E3 as [Han ->].
  inv_bind H E0. inv_bind H E4. apply getProp_inv in E4. destruct E4 as [_ ->].
  inv_bind H E5. apply getProp_inv in E5. destruct E5 as [_ ->].
  inversion H; subst a; clear H. cbn [quote anime character].
  split; [now apply wrapperItem_present |].
  unfold wrapperRecord; cbn [quote anime character].
  split; [reflexivity |]. split.
  - unfold orElse at 1.
    destruct (truthy (optProp (optProp item "anime") "name")) eqn:Hn.
    + now inversion E0.
    + inv_bind E0 E6. apply getProp_inv in E6. destruct E6 as [_ ->].
      now inversion E0.
  - intros Ht. unfold orElse. now rewrite Ht.
Qed.

Lemma strict_lenient_all items qs :
  mapM strictWrapperItem items = Ret qs ->
  mapM wrapperItem items = Ret (map wrapperRecord items)
  /\ Forall2 (fun a b => quote b = quote a /\ anime b = anime a
                        /\ (truthy (character a) = true ->
                            character b = character a))
       qs (map wrapperRecord items).
Proof.
  revert qs. induction items as [|it items IH]; simpl; intros qs H.
  - inversion H. split; [reflexivity | constructor].
  - inv_bind H E. inv_bind H E'. inversion H; subst qs; clear H.
    destruct (strict_lenient _ _ E) as (Hw & Hq & Ha & Hc).
    destruct (IH _ eq_refl) as [Hm Hf].
    rewrite Hw, Hm. split; [reflexivity |]. constructor; auto.
Qed.

Lemma Forall2_same {A} (R : A -> A -> Prop) l :
  (forall a, R a a) -> Forall2 R l l.
Proof. intros H. induction l; constructor; auto. Qed.

(** X14. Whenever [getQuotesByCharacterTool] returns quotes for a body,
    [parseApiResponse] reads the same body into as many records with the
    same text and anime, and the same character wherever the tool's
    character is truthy. *)
Theorem character_tool_agrees_with_parseApiResponse (net : Network)
  (ctx : QuotesContext) (status : nat) (v : value) (out : QuotesOutput) :
  net (withKey (QuotesByCharacter (qc_character ctx)
                  (Some (pageOr1 (qc_page ctx)))) (qc_apiKey ctx))
  = Response status (Ret v) ->
  getQuotesByCharacterTool net ctx = Ret out ->
  exists qs,
    parseApiResponse v = Ret qs
    /\ Forall2 (fun a b => quote b = quote a /\ anime b = anime a
                          /\ (truthy (character a) = true ->
                              character b = character a))
         (quotes out) qs.
Proof.
  intros Hnet Hout. unfold getQuotesByCharacterTool in Hout.
  destruct (getQuotesByCharacter_try net ctx) as [o | e] eqn:Ht;
    [| destruct e; discriminate Hout].
  inversion Hout; subst o; clear Hout.
  unfold getQuotesByCharacter_try in Ht. rewrite Hnet in Ht.
  destruct (ok status); cbn [negb] in Ht.
  2:{ cbn [bind] in Ht. inv_bind Ht E. discriminate Ht. }
  cbn [bind] in Ht. inv_bind Ht E. apply getProp_inv in E.
  destruct E as [Hv ->].
  unfold parseApiResponse. rewrite isWrapper_eq.
  destruct (truthy (optProp v "status")) eqn:Hs.
  - rewrite (present_getProp _ _ Hv) in Ht. cbn [bind andb] in Ht |- *.
    destruct (truthy (optProp v "data")) eqn:Hd.
    + inv_bind Ht E. inversion Ht; subst out; clear Ht. cbn [quotes].
      destruct (optProp v "data"); try discriminate E.
      cbn [arrayMap] in E |- *.
      destruct (strict_lenient_all _ _ E) as [Hm Hf]. eauto.
    + destruct (isArray v) eqn:Ha.
      * inv_bind Ht E. inversion Ht; subst out; clear Ht. cbn [quotes].
        eexists. split; [reflexivity |]. apply Forall2_same. auto.
      * discriminate Ht.
  - cbn [bind andb] in Ht |- *. rewrite Hs in Ht.
    destruct (isArray v) eqn:Ha.
    + inv_bind Ht E. inversion Ht; subst out; clear Ht. cbn [quotes].
      eexists. split; [reflexivity |]. apply Forall2_same. auto.
    + discriminate Ht.
Qed.

Lemma character_tool_agrees_with_parseApiResponse_witness :
  exists qs,
    parseApiResponse Examples.wrapperBody = Ret qs
    /\ Forall2 (fun a b => quote b = quote a /\ anime b = anime a
                          /\ (truthy (character a) = true ->
                              character b = character a))
         [MoreExamples.believeRecord] qs.
Proof.
  exact (character_tool_agrees_with_parseApiResponse MoreExamples.wrapperNet
           Examples.luffyQuotes 200 Examples.wrapperBody
           (mkQuotesOutput [MoreExamples.believeRecord] 1) eq_refl eq_refl).
Defined.

Lemma sameQuotes_map (r : result (list Quote)) p p' :
  sameQuotes (x <- r ;; Ret (mkQuotesOutput x p))
             (x <- r ;; Ret (mkQuotesOutput x p')).
Proof. destruct r; simpl; reflexivity. Qed.

Lemma sameQuotes_failure status (json : result value) :
  sameQuotes (throwApiError status json)
    (errorData <- json ;;
     err <- getProp errorData "error" ;;
     Throw (Error (toStringV
              (orElse err
                 (VString ("API request failed with status "
                           ++ ofNat status)%string))))).
Proof.
  unfold throwApiError. destruct json as [v|e]; simpl; [| reflexivity].
  destruct (getProp v "error"); simpl; reflexivity.
Qed.

(** X15. On the same response, [getQuotesByAnimeTool] and
    [getQuotesByCharacterTool] read the same quotes or fail with the same
    error, as long as the body is not [null]; on a [null] body of a 2xx
    response the first reports an unexpected format, and the second fails
    too. *)
Theorem anime_and_character_tools_normalize_alike
  (netA netC : Network) (ctxA : AnimeContext) (ctxC : QuotesContext)
  (status : nat) (json : result value) :
  netA (withKey (QuotesByAnime (ac_anime ctxA)
                   (Some (pageOr1 (ac_page ctxA)))) (ac_apiKey ctxA))
  = Response status json ->
  netC (withKey (QuotesByCharacter (qc_character ctxC)
                   (Some (pageOr1 (qc_page ctxC)))) (qc_apiKey ctxC))
  = Response status json ->
  ((forall v, json = Ret v -> present v) ->
   sameQuotes (getQuotesByAnime_try netA ctxA)
              (getQuotesByCharacter_try netC ctxC))
  /\ (ok status = true -> json = Ret VNull ->
      getQuotesByAnime_try netA ctxA = Throw (Error unexpectedFormat)
      /\ exists e, getQuotesByCharacter_try netC ctxC = Throw e).
Proof.
  intros HA HC. unfold getQuotesByAnime_try, getQuotesByCharacter_try.
  rewrite HA, HC. split.
  - intros Hp. destruct (ok status); cbn [negb].
    2:{ apply sameQuotes_failure. }
    destruct json as [v|e]; [| simpl; reflexivity].
    cbn [bind]. rewrite (present_getProp _ _ (Hp v eq_refl)). cbn [bind].
    rewrite isWrapper_eq.
    destruct (truthy (optProp v "status")) eqn:Hs.
    + rewrite (present_getProp _ _ (Hp v eq_refl)). cbn [bind andb].
      destruct (truthy (optProp v "data")); [apply sameQuotes_map |].
      destruct (isArray v); [apply sameQuotes_map | simpl; reflexivity].
    + cbn [bind andb]. rewrite Hs.
      destruct (isArray v); [apply sameQuotes_map | simpl; reflexivity].
  - intros -> ->. cbn. split; [reflexivity |].
    eexists. reflexivity.
Qed.

Lemma anime_and_character_tools_normalize_alike_witness :
  sameQuotes
    (getQuotesByAnime_try MoreExamples.wrapperNet MoreExamples.narutoAnime)
    (getQuotesByCharacter_try MoreExamples.wrapperNet Examples.luffyQuotes).
Proof.
  refine (proj1 (anime_and_character_tools_normalize_alike
                   MoreExamples.wrapperNet MoreExamples.wrapperNet
                   MoreExamples.narutoAnime Examples.luffyQuotes 200
                   (Ret Examples.wrapperBody) eq_refl eq_refl) _).
  intros v E. inversion E. split; discriminate.
Defined.

Lemma copy_record (q : Quote) : mkQuote (quote q) (anime q) (character q) = q.
Proof. now destruct q. Qed.

Lemma truthy_is_present v : truthy v = true -> present v.
Proof. destruct v; simpl; intros H; try discriminate H; split; discriminate. Qed.

Lemma random_try_ok net apiKey status v :
  net (asTruthy apiKey) = Response status (Ret v) -> ok status = true ->
  getRandomQuote_try net apiKey = randomQuoteData v.
Proof.
  intros Hnet Hok. unfold getRandomQuote_try. rewrite Hnet, Hok.
  cbn [negb bind]. destruct (randomQuoteData v); simpl;
    [now rewrite copy_record | reflexivity].
Qed.

(** X16. When the body of [getRandomQuoteTool] has status ['success'] and a
    truthy [data], [data] is read as the one quote object; a [data] array
    then gives no text and ["Unknown"] names, whatever its items. *)
Theorem random_success_reads_data_as_one_record (net : RandomNetwork)
  (apiKey : option string) (status : nat) (v : value) :
  net (asTruthy apiKey) = Response status (Ret v) -> ok status = true ->
  hasStatus v = true -> statusIsSuccess v = true ->
  truthy (optProp v "data") = true ->
  getRandomQuoteTool net apiKey = Ret (wrapperRecord (optProp v "data"))
  /\ (forall items, optProp v "data" = VArray items ->
        getRandomQuoteTool net apiKey = Ret (mkQuote VUndefined Unknown Unknown)).
Proof.
  intros Hnet Hok Hst Hsu Hd.
  assert (E : getRandomQuoteTool net apiKey
              = Ret (wrapperRecord (optProp v "data"))).
  { unfold getRandomQuoteTool. rewrite (random_try_ok _ _ _ _ Hnet Hok).
    unfold randomQuoteData. rewrite Hst, Hsu, Hd. cbn [andb].
    rewrite (wrapperItem_present _ (truthy_is_present _ Hd)). reflexivity. }
  split; [exact E |]. intros items Hi. rewrite E, Hi. reflexivity.
Qed.

Lemma random_success_reads_data_as_one_record_witness :
  getRandomQuoteTool MoreExamples.randomNet None
  = Ret MoreExamples.believeRecord.
Proof.
  exact (proj1 (random_success_reads_data_as_one_record
                  MoreExamples.randomNet None 200 MoreExamples.randomBody
                  eq_refl eq_refl eq_refl eq_refl eq_refl)).
Defined.

Lemma legacyName_resolved x :
  legacyName x <> VNull /\ legacyName x <> VUndefined.
Proof.
  destruct (legacyName_cases x) as [[H1 H2] | H].
  - rewrite H2. destruct x; try discriminate H1. split; discriminate.
  - destruct (legacyName x); try discriminate H; split; discriminate.
Qed.

Lemma wrapperRecord_resolved item :
  anime (wrapperRecord item) <> VNull
  /\ anime (wrapperRecord item) <> VUndefined
  /\ character (wrapperRecord item) <> VNull
  /\ character (wrapperRecord item) <> VUndefined.
Proof.
  destruct (wrapperRecord_names item) as [Ha Hc].
  destruct (truthy_present _ Ha) as (A1 & A2 & _).
  destruct (truthy_present _ Hc) as (C1 & C2 & _). auto.
Qed.

Lemma legacyRecord_resolved item :
  anime (legacyRecord item) <> VNull
  /\ anime (legacyRecord item) <> VUndefined
  /\ character (legacyRecord item) <> VNull
  /\ character (legacyRecord item) <> VUndefined.
Proof.
  cbn [legacyRecord anime character].
  destruct (legacyName_resolved (optProp item "anime")).
  destruct (legacyName_resolved (optProp item "character")). auto.
Qed.

(** X17. For a 2xx response, [getRandomQuoteTool] reports an unexpected
    format when the body is not an object; an object without [status] is
    read as a quote object and never fails; and a quote that is returned
    never has a [null] or [undefined] anime or character. *)
Theorem random_quote_shapes (net : RandomNetwork) (apiKey : option string)
  (status : nat) (v : value) :
  net (asTruthy apiKey) = Response status (Ret v) -> ok status = true ->
  (truthy v && typeofObject v = false ->
     getRandomQuoteTool net apiKey
     = Throw (Error ("Failed to fetch random quote: " ++ unexpectedFormat)%string))
  /\ (forall props, v = VObject props -> lookup "status" props = None ->
        getRandomQuoteTool net apiKey = Ret (legacyRecord v))
  /\ (forall q, getRandomQuoteTool net apiKey = Ret q ->
        anime q <> VNull /\ anime q <> VUndefined
        /\ character q <> VNull /\ character q <> VUndefined).
Proof.
  intros Hnet Hok. unfold getRandomQuoteTool.
  rewrite (random_try_ok _ _ _ _ Hnet Hok). split; [| split].
  - intros H. unfold randomQuoteData, hasStatus. rewrite H. reflexivity.
  - intros props -> Hl. unfold randomQuoteData, hasStatus.
    cbn [truthy typeofObject hasIn andb nonEmptyArray]. rewrite Hl. cbn [andb].
    rewrite legacyItem_present by (split; discriminate). reflexivity.
  - intros q Hq.
    assert (Hr : randomQuoteData v = Ret q).
    { destruct (randomQuoteData v) as [q' | [msg |]]; simpl in Hq;
        now inversion Hq. }
    clear Hq. unfold randomQuoteData in Hr.
    repeat match type of Hr with
           | (if ?c then _ else _) = _ => destruct c
           end; try discriminate Hr.
    + apply wrapperItem_Ret in Hr. subst q. apply wrapperRecord_resolved.
    + apply wrapperItem_Ret in Hr. subst q. apply wrapperRecord_resolved.
    + apply legacyItem_Ret in Hr. subst q. apply legacyRecord_resolved.
    + apply legacyItem_Ret in Hr. subst q. apply legacyRecord_resolved.
Qed.

Lemma random_quote_shapes_witness :
  getRandomQuoteTool MoreExamples.plainTextNet None
  = Throw (Error "Failed to fetch random quote: Unexpected API response format").
Proof.
  exact (proj1 (random_quote_shapes MoreExamples.plainTextNet None 200
                  (VString "Too many requests") eq_refl eq_refl) eq_refl).
Defined.

(** X18. With a quote but neither a character nor an anime the tool
    gathers nothing: the verdict is not found, with high confidence,
    whatever the network would answer. *)
Theorem quote_alone_is_never_verified_by_the_tool (net : Network)
  (ctx : VerifyContext) (qv : string) :
  asTruthy (vc_quote ctx) = Some qv ->
  asTruthy (vc_character ctx) = None ->
  asTruthy (vc_anime ctx) = None ->
  verifyAnimeQuoteTool net ctx = mkVerdict false high [] Tools.notFoundMessage.
Proof.
  intros Hq Hc Ha. rewrite tool_unfold. unfold provided.
  rewrite (asTruthy_truthyStr (vc_quote ctx)), Hq. cbn [orb].
  assert (Hg : gatherQuotes net ctx = Ret []).
  { apply gather_nothing; rewrite asTruthy_truthyStr; [now rewrite Hc | now rewrite Ha]. }
  rewrite (try_with_quote _ _ _ _ Hq Hg). reflexivity.
Qed.

Lemma quote_alone_is_never_verified_by_the_tool_witness :
  verifyAnimeQuoteTool Examples.downNet MoreExamples.quoteOnly
  = mkVerdict false high [] Tools.notFoundMessage.
Proof.
  exact (quote_alone_is_never_verified_by_the_tool Examples.downNet
           MoreExamples.quoteOnly "Believe it!" eq_refl eq_refl eq_refl).
Defined.

(** X19. In the tool a non-2xx answer to the character look-up is passed
    over: the candidates are those of the anime look-up, or none when no
    anime was supplied. *)
Theorem refused_character_lookup_leaves_it_to_the_anime (net : Network)
  (ctx : VerifyContext) (c : string) (status : nat) (json : result value) :
  asTruthy (vc_character ctx) = Some c ->
  net (withKey (QuotesByCharacter c None) (vc_apiKey ctx))
  = Response status json ->
  ok status = false ->
  gatherQuotes net ctx
  = match asTruthy (vc_anime ctx) with
    | Some a => lookupQuotes net (QuotesAnimeTitle a) (vc_apiKey ctx) []
    | None => Ret []
    end.
Proof.
  intros Hc Hnet Hok. unfold gatherQuotes. rewrite Hc.
  unfold lookupQuotes at 1. rewrite Hnet, Hok. reflexivity.
Qed.

Lemma refused_character_lookup_leaves_it_to_the_anime_witness :
  gatherQuotes MoreExamples.refusedNet MoreExamples.narutoContext
  = Ret [MoreExamples.believeRecord].
Proof.
  rewrite (refused_character_lookup_leaves_it_to_the_anime
             MoreExamples.refusedNet MoreExamples.narutoContext
             "Naruto Uzumaki" 404
             (Ret (VObject [("error", VString "Not found")]))
             eq_refl eq_refl eq_refl).
  reflexivity.
Defined.

End ToolsExtras.

(** ** The storage service *)

Module StorageFacts.

Import JsString Storage Vocabulary.

Lemma splitOnFrom_nonempty sep s cur : splitOnFrom sep s cur <> [].
Proof.
  revert cur. induction s as [|c s IH]; intros cur; simpl; [discriminate |].
  destruct (Ascii.eqb c sep); [discriminate | apply IH].
Qed.

Lemma pop_cons x l : l <> [] -> pop (x :: l) = pop l.
Proof. destruct l; [congruence | reflexivity]. Qed.

Lemma pop_split_app sep s t cur :
  pop (splitOnFrom sep (s ++ String sep t) cur) = pop (splitOnFrom sep t []).
Proof.
  revert cur. induction s as [|c s IH]; intros cur; simpl.
  - rewrite Ascii.eqb_refl. apply pop_cons, splitOnFrom_nonempty.
  - destruct (Ascii.eqb c sep); [| apply IH].
    rewrite pop_cons by apply splitOnFrom_nonempty. apply IH.
Qed.

Lemma string_of_list_app l t :
  (string_of_list_ascii l ++ t)%string
  = string_of_list_ascii (l ++ list_ascii_of_string t).
Proof.
  induction l as [|a l IH]; simpl.
  - now rewrite string_of_list_ascii_of_string.
  - now rewrite IH.
Qed.

Lemma splitOnFrom_dotless t cur :
  dotless t = true ->
  splitOnFrom "." t cur = [(string_of_list_ascii (rev cur) ++ t)%string].
Proof.
  revert cur. induction t as [|c t IH]; intros cur H.
  - cbn [splitOnFrom]. rewrite string_of_list_app. simpl.
    now rewrite app_nil_r.
  - cbn [dotless] in H. apply andb_true_iff in H. destruct H as [Hc Ht].
    apply negb_true_iff in Hc. cbn [splitOnFrom]. rewrite Hc, (IH _ Ht).
    rewrite !string_of_list_app. cbn [rev list_ascii_of_string].
    now rewrite <- app_assoc.
Qed.

Lemma pop_last_extension name ext :
  dotless ext = true ->
  pop (splitOn "." (name ++ String "." ext)) = Some ext.
Proof.
  intros H. unfold splitOn. rewrite pop_split_app, (splitOnFrom_dotless _ _ H).
  reflexivity.
Qed.

Lemma getContentType_extension name ext :
  dotless ext = true ->
  getContentType (name ++ String "." ext)
  = match typesAt (toLowerCase ext) with
    | Some t => t
    | None => Mime "application/octet-stream"
    end.
Proof.
  intros H. unfold getContentType. now rewrite (pop_last_extension _ _ H).
Qed.

(** X20. [getContentType] depends only on the text after the last dot,
    without regard to case. *)
Theorem content_type_by_last_extension (name name' ext ext' : string) :
  dotless ext = true -> dotless ext' = true ->
  toLowerCase ext = toLowerCase ext' ->
  getContentType (name ++ "." ++ ext) = getContentType (name' ++ "." ++ ext').
Proof.
  intros H H' E. cbn [String.append].
  now rewrite !getContentType_extension, E.
Qed.

Lemma content_type_by_last_extension_witness :
  getContentType "lecture.notes.PDF" = getContentType "summary.pdf".
Proof.
  exact (content_type_by_last_extension "lecture.notes" "summary" "PDF" "pdf"
           eq_refl eq_refl eq_refl).
Defined.

Lemma lowerUnit_no_capital c :
  unit_in 65 90 (nat_of_ascii (lowerUnit c)) = false.
Proof.
  destruct c as [[] [] [] [] [] [] [] []]; vm_compute; reflexivity.
Qed.

Lemma toLowerCase_noCapital s : noCapital (toLowerCase s) = true.
Proof.
  induction s as [|c s IH]; simpl; [reflexivity |].
  now rewrite lowerUnit_no_capital, IH.
Qed.

Lemma pop_key_noCapital fileName :
  noCapital (match option_map toLowerCase (pop (splitOn "." fileName)) with
             | Some e => e
             | None => EmptyString
             end) = true.
Proof.
  destruct (pop (splitOn "." fileName)); simpl;
    [apply toLowerCase_noCapital | reflexivity].
Qed.

Lemma getContentType_whole_name ext :
  dotless ext = true ->
  getContentType ext
  = match typesAt (toLowerCase ext) with
    | Some t => t
    | None => Mime "application/octet-stream"
    end.
Proof.
  intros H. unfold getContentType, splitOn.
  now rewrite (splitOnFrom_dotless _ _ H).
Qed.

(** X21. The content type of a file name is decided by its extension, the
    text after its last dot (the whole name when it has no dot),
    lower-cased.  For the extensions [constructor] and [__proto__] the
    look-up in the table reaches [Object.prototype] and the inherited
    member is returned in place of a content type; for every other
    extension the result is the entry of the table, or
    [application/octet-stream] when the table has none. *)
Theorem content_type_is_a_string_but_for_two (fileName name ext : string) :
  fileName = ext \/ fileName = (name ++ "." ++ ext)%string ->
  dotless ext = true ->
  let key := toLowerCase ext in
  (key = "constructor" \/ key = "__proto__" ->
     getContentType fileName = Inherited key)
  /\ (key <> "constructor" -> key <> "__proto__" ->
      getContentType fileName
      = Mime match assoc key types with
             | Some t => t
             | None => "application/octet-stream"
             end).
Proof.
  intros Hname Hdot key.
  assert (getContentType fileName
          = match typesAt key with
            | Some t => t
            | None => Mime "application/octet-stream"
            end) as ->.
  { destruct Hname as [-> | ->].
    - now apply getContentType_whole_name.
    - cbn [String.append]. now apply getContentType_extension. }
  pose proof (toLowerCase_noCapital ext) as Hk. fold key in Hk.
  clearbody key. split.
  - intros [-> | ->]; reflexivity.
  - intros Hc Hp. unfold typesAt.
    destruct (assoc key types) as [t|]; [reflexivity |].
    destruct (existsb (String.eqb key) objectPrototype) eqn:E;
      [| reflexivity].
    exfalso. apply existsb_exists in E. destruct E as (m & Hin & Hm).
    apply String.eqb_eq in Hm. subst m. simpl in Hin.
    repeat (destruct Hin as [Hin | Hin];
            [rewrite <- Hin in *; try discriminate Hk; congruence |]).
    destruct Hin.
Qed.

Lemma content_type_is_a_string_but_for_two_witness :
  getContentType "notes.Constructor" = Inherited "constructor"
  /\ getContentType "__proto__" = Inherited "__proto__"
  /\ getContentType "notes.valueOf" = Mime "application/octet-stream"
  /\ getContentType "notes.PDF" = Mime "application/pdf".
Proof.
  split; [| split; [| split]].
  - exact (proj1 (content_type_is_a_string_but_for_two
                    "notes.Constructor" "notes" "Constructor"
                    (or_intror eq_refl) eq_refl) (or_introl eq_refl)).
  - exact (proj1 (content_type_is_a_string_but_for_two
                    "__proto__" "notes" "__proto__"
                    (or_introl eq_refl) eq_refl) (or_intror eq_refl)).
  - apply (proj2 (content_type_is_a_string_but_for_two
                    "notes.valueOf" "notes" "valueOf"
                    (or_intror eq_refl) eq_refl)); discriminate.
  - apply (proj2 (content_type_is_a_string_but_for_two
                    "notes.PDF" "notes" "PDF"
                    (or_intror eq_refl) eq_refl)); discriminate.
Defined.

End StorageFacts.

(** ** The ingestion workflow *)

Module IngestionFacts.

Import JsString JsColl Storage Ingestion Chunking IngestionWorkflow Vocabulary
  Tools StorageFacts.

Ltac bind_inv H E :=
  match type of H with
  | bind ?r _ = Ret _ =>
      destruct r eqn:E; [cbn [bind] in H | discriminate H]
  end.

Lemma upload_inv service buf name folder key :
  upload service buf name (Some folder) = Ret key ->
  key = (folder ++ "/" ++ name)%string
  /\ send service (mkPutObject (bucket service) key buf (getContentType name))
     = Ret tt.
Proof.
  unfold upload. intros H.
  destruct (send service _) as [[] | e] eqn:E; [| discriminate H].
  cbn [bind] in H. inversion H; subst key. split; [reflexivity | exact E].
Qed.

(** X22. When [extractPdfText] returns, what it reports was stored: the
    storage accepted the bytes that were read under the path returned,
    which is the folder of the user and the stored name; the size is that
    of those bytes, the text and page count are those parsed from them, and
    the identifier is the one drawn. *)
Theorem extractPdfText_reports_what_it_stored (env : Env)
  (input : ExtractInput) (out : ExtractOutput) :
  extractPdfText env input = Ret out ->
  exists buf pd,
    readPdf env (pdfFile input) = Ret buf
    /\ pdfParse env buf = Ret pd
    /\ filePath out
       = (storedFolder (ei_userId input) ++ "/"
          ++ storedName (ei_fileName input) (randomUUID env))%string
    /\ send (r2Storage env)
         (mkPutObject (bucket (r2Storage env)) (filePath out) buf
            (getContentType
               (storedName (ei_fileName input) (randomUUID env))))
       = Ret tt
    /\ fileSize out = List.length buf
    /\ textContent out = text pd
    /\ pages (metadata out) = numpages pd
    /\ documentId out = randomUUID env.
Proof.
  unfold extractPdfText. intros H.
  bind_inv H Eb. bind_inv H Ep. bind_inv H Eu. bind_inv H Ed.
  inversion H; subst out; clear H. cbn.
  destruct (upload_inv _ _ _ _ _ Eu) as [Hk Hs].
  eexists; eexists. repeat split; try reflexivity; assumption.
Qed.

Lemma extractPdfText_reports_what_it_stored_witness :
  exists buf,
    readPdf MoreExamples.goodEnv (pdfFile MoreExamples.bufferInput) = Ret buf
    /\ fileSize MoreExamples.extracted = List.length buf.
Proof.
  destruct (extractPdfText_reports_what_it_stored MoreExamples.goodEnv
              MoreExamples.bufferInput MoreExamples.extracted eq_refl)
    as (buf & pd & Hb & _ & _ & _ & Hs & _).
  exists buf. split; assumption.
Defined.

Lemma default_name_is_pdf id :
  getContentType ("document-" ++ id ++ ".pdf") = Mime "application/pdf".
Proof.
  change ("document-" ++ id ++ ".pdf")%string
    with ("document-" ++ (id ++ String "." "pdf"))%string.
  assert (E : ("document-" ++ (id ++ String "." "pdf"))%string
              = (("document-" ++ id) ++ String "." "pdf")%string).
  { clear. induction id; reflexivity. }
  rewrite E. now rewrite getContentType_extension.
Qed.

(** X23. Without a file name the document is stored as
    [<folder>/document-<id>.pdf] with content type [application/pdf]. *)
Theorem unnamed_document_is_stored_as_pdf (env : Env) (input : ExtractInput)
  (out : ExtractOutput) :
  asTruthy (ei_fileName input) = None ->
  extractPdfText env input = Ret out ->
  filePath out
  = (storedFolder (ei_userId input) ++ "/document-" ++ randomUUID env
     ++ ".pdf")%string
  /\ exists buf,
       send (r2Storage env)
         (mkPutObject (bucket (r2Storage env)) (filePath out) buf
            (Mime "application/pdf"))
       = Ret tt
       /\ fileSize out = List.length buf.
Proof.
  intros Hn H. unfold extractPdfText in H.
  bind_inv H Eb. bind_inv H Ep. bind_inv H Eu. bind_inv H Ed.
  inversion H; subst out; clear H. cbn [filePath fileSize].
  destruct (upload_inv _ _ _ _ _ Eu) as [Hk Hs].
  unfold storedName in *. rewrite Hn in *.
  rewrite default_name_is_pdf in Hs.
  split; [exact Hk |]. eexists. split; [exact Hs | reflexivity].
Qed.

Lemma unnamed_document_is_stored_as_pdf_witness :
  filePath MoreExamples.extracted = "pdfs/document-doc-1.pdf".
Proof.
  exact (proj1 (unnamed_document_is_stored_as_pdf MoreExamples.goodEnv
                  MoreExamples.bufferInput MoreExamples.extracted
                  eq_refl eq_refl)).
Defined.

Lemma summary_name_is_json id :
  getContentType (id ++ "-summary.json") = Mime "application/json".
Proof.
  assert (E : (id ++ "-summary.json")%string
              = ((id ++ "-summary") ++ String "." "json")%string).
  { induction id as [|c id IH]; simpl; [reflexivity | now rewrite IH]. }
  rewrite E. now rewrite getContentType_extension.
Qed.

(** X26. [storeDocumentData] uploads the summary as
    [metadata/<id>-summary.json] with content type [application/json]; it
    returns, with the number of chunks and [stored] set, exactly when that
    upload is accepted, and throws what the upload throws. *)
Theorem storeDocumentData_stores_a_json_summary (env : StoreEnv)
  (input : ChunkOutput) :
  let command :=
    mkPutObject (bucket (storage env))
      ("metadata/" ++ co_documentId input ++ "-summary.json")%string
      (stringify env (summaryOf (now env) input))
      (Mime "application/json") in
  (forall out, storeDocumentData env input = Ret out ->
     send (storage env) command = Ret tt
     /\ out = mkStoreOutput (co_documentId input)
                (List.length (co_chunks input)) true)
  /\ (forall e, send (storage env) command = Throw e ->
        storeDocumentData env input = Throw e)
  /\ (send (storage env) command = Ret tt ->
        storeDocumentData env input
        = Ret (mkStoreOutput (co_documentId input)
                 (List.length (co_chunks input)) true)).
Proof.
  intros command. subst command. unfold storeDocumentData, upload.
  rewrite summary_name_is_json. cbn [String.append].
  destruct (send (storage env) _) as [[] | e]; cbn [bind];
    refine (conj _ (conj _ _)).
  - intros out H. now inversion H.
  - intros e H. discriminate H.
  - reflexivity.
  - intros out H. discriminate H.
  - intros e' H. now inversion H.
  - intros H. discriminate H.
Qed.

Lemma lookup_mapSet k k' (v : value) m :
  lookup k (mapSet k' v m) = if String.eqb k k' then Some v else lookup k m.
Proof.
  induction m as [|[k0 v0] m IH]; simpl.
  - reflexivity.
  - destruct (String.eqb_spec k' k0) as [E|E]; simpl.
    + subst k0. destruct (String.eqb k k'); reflexivity.
    + rewrite IH. destruct (String.eqb_spec k k0) as [E0|E0];
        [| reflexivity].
      subst k0. destruct (String.eqb_spec k k'); [congruence | reflexivity].
Qed.

Lemma indexOfFrom_nth chunks : forall i j c,
  NoDup (map ref chunks) -> nth_error chunks j = Some c ->
  indexOfFrom i chunks c = (i + Z.of_nat j)%Z.
Proof.
  induction chunks as [|x chunks IH]; intros i j c Hnd Hn.
  - destruct j; discriminate Hn.
  - inversion Hnd as [|? ? Hnin Hnd']; subst. destruct j as [|j]; simpl in *.
    + inversion Hn; subst. rewrite Nat.eqb_refl. lia.
    + destruct (Nat.eqb_spec (ref x) (ref c)) as [E|E].
      * exfalso. apply Hnin. rewrite E. apply in_map.
        eapply nth_error_In; eassumption.
      * rewrite (IH _ j c Hnd' Hn). lia.
Qed.

(** X25. When the chunks the chunker returns are distinct objects,
    [chunkDocument] returns one chunk per chunk, in order, with its text,
    and the metadata of the i-th holds [chunkIndex] i, the total number of
    chunks and the document's identifier, whatever the chunker had put
    under those keys. *)
Theorem chunkDocument_numbers_the_chunks (chunker : Chunker)
  (input : ChunkInput) (chunks : list Chunk) :
  chunker (ci_textContent input) (documentMetadata input) = Ret chunks ->
  NoDup (map ref chunks) ->
  exists out,
    chunkDocument chunker input = Ret out
    /\ List.length (co_chunks out) = List.length chunks
    /\ forall i c, nth_error chunks i = Some c ->
         exists oc,
           nth_error (co_chunks out) i = Some oc
           /\ oc_text oc = chunkText c
           /\ lookup "chunkIndex" (oc_metadata oc)
              = Some (VNumber (Z.of_nat i))
           /\ lookup "totalChunks" (oc_metadata oc)
              = Some (VNumber (Z.of_nat (List.length chunks)))
           /\ lookup "documentId" (oc_metadata oc)
              = Some (VString (ci_documentId input)).
Proof.
  intros Hc Hnd. unfold chunkDocument. rewrite Hc. cbn [bind].
  eexists. split; [reflexivity |]. cbn [co_chunks].
  split; [apply length_map |].
  intros i c Hn. eexists. split.
  - rewrite nth_error_map, Hn. reflexivity.
  - cbn [oc_text oc_metadata]. split; [reflexivity |].
    unfold chunkMetadataOf, spread. cbn [fold_left]. unfold mapStep.
    cbn [fst snd]. rewrite !lookup_mapSet. cbn.
    unfold indexOf. rewrite (indexOfFrom_nth _ _ _ _ Hnd Hn).
    repeat split.
Qed.

Lemma chunkDocument_numbers_the_chunks_witness :
  exists out,
    chunkDocument MoreExamples.twoChunker MoreExamples.chunkInput = Ret out
    /\ List.length (co_chunks out) = 2.
Proof.
  destruct (chunkDocument_numbers_the_chunks MoreExamples.twoChunker
              MoreExamples.chunkInput MoreExamples.twoChunks eq_refl)
    as (out & E & L & _).
  - simpl. constructor; [intros [H | []]; discriminate H |].
    constructor; [intros [] | constructor].
  - exists out. split; [exact E | exact L].
Defined.

Lemma storeDocumentData_inv env input out :
  storeDocumentData env input = Ret out ->
  out = mkStoreOutput (co_documentId input) (List.length (co_chunks input)) true.
Proof.
  unfold storeDocumentData. intros H. bind_inv H E. now inversion H.
Qed.

Lemma extractPdfText_id env input e :
  extractPdfText env input = Ret e -> documentId e = randomUUID env.
Proof.
  unfold extractPdfText. intros H.
  bind_inv H Eb. bind_inv H Ep. bind_inv H Eu. bind_inv H Ed.
  now inversion H.
Qed.

(** X27. A run of the ingestion workflow that returns reports the
    identifier drawn in step 1, [stored], and as chunk count the number of
    chunks the chunker returned for the extracted text. *)
Theorem ingestion_counts_the_chunks (env : Env) (chunker : Chunker)
  (clock : string) (toJson : value -> Buffer) (input : ExtractInput)
  (out : StoreOutput) :
  documentIngestionWorkflow env chunker clock toJson input = Ret out ->
  so_documentId out = randomUUID env
  /\ stored out = true
  /\ exists e chunks,
       extractPdfText env input = Ret e
       /\ chunker (textContent e)
            (documentMetadata
               (mkChunkInput (documentId e) (textContent e)
                  (metadataValue (metadata e)) (filePath e) (fileSize e)))
          = Ret chunks
       /\ chunksCount out = List.length chunks.
Proof.
  unfold documentIngestionWorkflow. intros H.
  destruct (extractPdfText env input) as [e | ex] eqn:Ee; [| discriminate H].
  cbn [bind] in H. unfold chunkDocument in H.
  cbn [ci_textContent ci_documentId ci_metadata ci_filePath] in H.
  destruct (chunker _ _) as [chunks | ex] eqn:Ec; [| discriminate H].
  cbn [bind] in H. apply storeDocumentData_inv in H. subst out.
  cbn [so_documentId stored chunksCount co_documentId co_chunks].
  split; [exact (extractPdfText_id _ _ _ Ee) |]. split; [reflexivity |].
  exists e, chunks. split; [reflexivity |]. split; [exact Ec |].
  apply length_map.
Qed.

Lemma ingestion_counts_the_chunks_witness :
  so_documentId (mkStoreOutput "doc-1" 2 true) = "doc-1"
  /\ stored (mkStoreOutput "doc-1" 2 true) = true.
Proof.
  destruct (ingestion_counts_the_chunks MoreExamples.goodEnv
              MoreExamples.twoChunker "2026-01-01T00:00:00.000Z"
              (fun _ => MoreExamples.twoBytes) MoreExamples.bufferInput
              (mkStoreOutput "doc-1" 2 true) eq_refl) as (Hi & Hs & _).
  split; [exact Hi | exact Hs].
Defined.

(** X24. [extractPdfText] fails in one of four ways, in this order:
    reading the bytes, parsing them, the upload, the creation date; a
    failure of the date comes only after the upload was accepted. *)
Theorem extractPdfText_failures (env : Env) (input : ExtractInput) (e : exn) :
  extractPdfText env input = Throw e ->
  readPdf env (pdfFile input) = Throw e
  \/ exists buf,
       readPdf env (pdfFile input) = Ret buf
       /\ (pdfParse env buf = Throw e
           \/ exists pd,
                pdfParse env buf = Ret pd
                /\ let command :=
                     mkPutObject (bucket (r2Storage env))
                       (storedFolder (ei_userId input) ++ "/"
                        ++ storedName (ei_fileName input) (randomUUID env))
                       buf
                       (getContentType
                          (storedName (ei_fileName input) (randomUUID env))) in
                   send (r2Storage env) command = Throw e
                   \/ (send (r2Storage env) command = Ret tt
                       /\ isoCreationDate env (info pd) = Throw e)).
Proof.
  unfold extractPdfText. intros H.
  destruct (readPdf env (pdfFile input)) as [buf|ex] eqn:Eb;
    [| left; cbn [bind] in H; now inversion H].
  right. exists buf. split; [reflexivity |]. cbn [bind] in H.
  destruct (pdfParse env buf) as [pd|ex] eqn:Ep;
    [| left; cbn [bind] in H; now inversion H].
  right. exists pd. split; [reflexivity |]. cbn [bind] in H.
  unfold upload in H. cbv zeta.
  destruct (send (r2Storage env) _) as [[]|ex] eqn:Es;
    [| left; cbn [bind] in H; now inversion H].
  right. split; [reflexivity |]. cbn [bind] in H.
  destruct (isoCreationDate env (info pd)) as [d|ex];
    cbn [bind] in H; [discriminate H | now inversion H].
Qed.

Lemma extractPdfText_failures_witness :
  exists buf,
    readPdf MoreExamples.badPdfEnv (pdfFile MoreExamples.bufferInput) = Ret buf
    /\ pdfParse MoreExamples.badPdfEnv buf
       = Throw (Error "Invalid PDF structure").
Proof.
  destruct (extractPdfText_failures MoreExamples.badPdfEnv
              MoreExamples.bufferInput (Error "Invalid PDF structure") eq_refl)
    as [H | (buf & Hb & H)]; [discriminate H |].
  exists buf. split; [exact Hb |]. reflexivity.
Defined.

End IngestionFacts.
